(** * NanoBanana: the Gemini client module and the UI handlers that call it

    A shallow embedding of [services/geminiService.ts] (payload encoder,
    the two request functions, the response classifier) and of the state
    and event handlers of the [App] component in [App.tsx].

    Conventions of the embedding.
    - A JavaScript string is a [string]; a character is the code unit it
      denotes, in the Latin-1 range.
    - A value that the source reads through [?.], tests for truthiness or
      defaults with [||] is an [option]; a field the source dereferences
      without a test is a plain value.
    - [throw] and a rejected promise are the [Throw] completion; [await]
      of a resolved promise is the [Return] completion.
    - The remote service and the browser's file reader are parameters of
      the development: functions from the request to a completion.
    - [console.log] and [console.error] calls are left out. *)

From Stdlib Require Import String Ascii List Bool Arith Lia.
Import ListNotations.
Open Scope list_scope.
Open Scope string_scope.

(* ===================================================================== *)
(** ** JavaScript primitives used by the source                           *)
(* ===================================================================== *)

Module Js.

(** What a [throw] carries.  [Error message] is [new Error(message)];
    [ErrorEvent] is the event object a [FileReader] hands to [onerror],
    which has no [message] property. *)
Inductive Thrown : Type :=
| Error (message : string)
| ErrorEvent.

(** [err.message]: [undefined] on an object without the property. *)
Definition message (err : Thrown) : option string :=
  match err with
  | Error m => Some m
  | ErrorEvent => None
  end.

(** The completion of a call: a value, or a thrown exception. *)
Inductive Completion (A : Type) : Type :=
| Return (a : A)
| Throw (e : Thrown).

Arguments Return {A} a.
Arguments Throw {A} e.

Definition bind {A B : Type} (c : Completion A) (k : A -> Completion B)
  : Completion B :=
  match c with
  | Return a => k a
  | Throw e => Throw e
  end.

(** The double quote character, U+0022. *)
Definition dquote : string := String (ascii_of_nat 34) EmptyString.

(** ToBoolean on [string | undefined]: only a non-empty string is truthy. *)
Definition truthy (v : option string) : bool :=
  match v with
  | Some (String _ _) => true
  | _ => false
  end.

(** [a || b] on strings with a string default. *)
Definition orElse (v : option string) (dflt : string) : string :=
  if truthy v then match v with Some s => s | None => dflt end else dflt.

(** [`${v}`] on [string | undefined]: the string itself, and the text
    [undefined] for a missing value. *)
Definition toText (v : option string) : string :=
  match v with
  | Some s => s
  | None => "undefined"
  end.

(** [a?.f]: optional chaining through an optional field. *)
Definition chain {A B : Type} (v : option A) (f : A -> option B) : option B :=
  match v with
  | Some a => f a
  | None => None
  end.

(** [isSome v] is the truthiness of an optional object. *)
Definition isSome {A : Type} (v : option A) : bool :=
  match v with Some _ => true | None => false end.

(** [String.prototype.split] with a one-character separator, as the first
    piece and the pieces that follow it. *)
Fixpoint splitPieces (sep : ascii) (s : string) : string * list string :=
  match s with
  | EmptyString => (EmptyString, [])
  | String c s' =>
      let (piece, pieces) := splitPieces sep s' in
      if Ascii.eqb c sep then (EmptyString, piece :: pieces)
      else (String c piece, pieces)
  end.

Definition split (sep : ascii) (s : string) : list string :=
  let (piece, pieces) := splitPieces sep s in piece :: pieces.

(** LineTerminator code units, which [.] in a regular expression does not
    match: LF and CR (U+2028 and U+2029 lie outside Latin-1). *)
Definition isLineTerminator (c : ascii) : bool :=
  Ascii.eqb c (ascii_of_nat 10) || Ascii.eqb c (ascii_of_nat 13).

(** WhiteSpace and LineTerminator code units, which [trim] strips:
    TAB, LF, VT, FF, CR, SP and NBSP. *)
Definition isWhiteSpace (c : ascii) : bool :=
  let n := nat_of_ascii c in
  ((9 <=? n)%nat && (n <=? 13)%nat) || (n =? 32)%nat || (n =? 160)%nat.

Fixpoint trimStart (s : string) : string :=
  match s with
  | EmptyString => EmptyString
  | String c s' => if isWhiteSpace c then trimStart s' else s
  end.

Fixpoint trimEnd (s : string) : string :=
  match s with
  | EmptyString => EmptyString
  | String c s' =>
      match trimEnd s' with
      | EmptyString => if isWhiteSpace c then EmptyString else String c EmptyString
      | t => String c t
      end
  end.

(** [String.prototype.trim]. *)
Definition trim (s : string) : string := trimEnd (trimStart s).

(** [Array.prototype.includes] on an array of strings. *)
Definition includes (arr : list string) (x : string) : bool :=
  existsb (String.eqb x) arr.

(** [Array.prototype.slice(0, n)]. *)
Definition slice0 {A : Type} (n : nat) (arr : list A) : list A := firstn n arr.

(** The tail [(.*?);] of the pattern, anchored at the head of [s]: the
    lazy star takes the fewest characters, none of them a line terminator,
    that bring it to a [;].  The result is the captured group. *)
Fixpoint lazyUntilSemicolon (s : string) : option string :=
  match s with
  | EmptyString => None
  | String c s' =>
      if Ascii.eqb c ";" then Some EmptyString
      else if isLineTerminator c then None
      else option_map (String c) (lazyUntilSemicolon s')
  end.

(** [s.match(/:(.*?);/)]: the leftmost [:] from which the tail matches;
    the result is group 1 of the match, [None] when there is no match. *)
Fixpoint matchColonGroupSemicolon (s : string) : option string :=
  match s with
  | EmptyString => None
  | String c s' =>
      if Ascii.eqb c ":" then
        match lazyUntilSemicolon s' with
        | Some group => Some group
        | None => matchColonGroupSemicolon s'
        end
      else matchColonGroupSemicolon s'
  end.

End Js.

Import Js.

Notation "x <- c ;; k" := (bind c (fun x => k))
  (at level 61, c at next level, right associativity).

(* ===================================================================== *)
(** ** The shapes exchanged with the remote service                       *)
(* ===================================================================== *)

(** ['1:1' | '16:9' | '9:16' | '4:3' | '3:4'] *)
Inductive AspectRatio : Type :=
| Ratio_1_1 | Ratio_16_9 | Ratio_9_16 | Ratio_4_3 | Ratio_3_4.

Definition aspectRatioText (r : AspectRatio) : string :=
  match r with
  | Ratio_1_1 => "1:1"
  | Ratio_16_9 => "16:9"
  | Ratio_9_16 => "9:16"
  | Ratio_4_3 => "4:3"
  | Ratio_3_4 => "3:4"
  end.

(** The response and request objects of the client library, with the
    fields the source reads or writes.  The library's own declarations are
    not part of the repository; optionality follows the source's use. *)
Module Sdk.

Record Blob : Type := { mimeType : string; data : string }.

Record Part : Type := { inlineData : option Blob }.

Record Content : Type := { parts : option (list Part) }.

Record Candidate : Type :=
  { content : option Content;
    finishReason : option string }.

Record PromptFeedback : Type :=
  { blockReason : option string;
    blockReasonMessage : option string }.

Record GenerateContentResponse : Type :=
  { promptFeedback : option PromptFeedback;
    candidates : option (list Candidate);
    text : option string }.

Record Image : Type := { imageBytes : string }.

Record GeneratedImage : Type := { image : Image }.

Record GenerateImagesResponse : Type :=
  { generatedImages : option (list GeneratedImage) }.

Inductive Modality : Type := IMAGE | TEXT.

(** One element of [contents.parts] in a request. *)
Inductive RequestPart : Type :=
| InlineDataPart (blob : Blob)
| TextPart (text : string).

Record GenerateContentParameters : Type :=
  { contentModel : string;
    contentsParts : list RequestPart;
    responseModalities : list Modality }.

Record GenerateImagesParameters : Type :=
  { imagesModel : string;
    imagesPrompt : string;
    numberOfImages : nat;
    outputMimeType : string;
    aspectRatio : AspectRatio }.

End Sdk.

(* ===================================================================== *)
(** ** services/geminiService.ts                                          *)
(* ===================================================================== *)

Module GeminiService.

(** The encoder's result type, [{ inlineData: { mimeType, data } }]. *)
Record ImagePart : Type := { inlineData : Sdk.Blob }.

(** [dataUrlToPart]: split at commas, reject fewer than two pieces, take
    the MIME type from group 1 of the pattern on the first piece and the
    payload from the second piece. *)
Definition dataUrlToPart (dataUrl : string) : Completion ImagePart :=
  match split "," dataUrl with
  | header :: payload :: _ =>
      match matchColonGroupSemicolon header with
      | None => Throw (Error "Could not parse MIME type from data URL")
      | Some EmptyString =>
          Throw (Error "Could not parse MIME type from data URL")
      | Some mimeType =>
          Return {| inlineData :=
                      {| Sdk.mimeType := mimeType; Sdk.data := payload |} |}
      end
  | _ => Throw (Error "Invalid data URL")
  end.

(** The first argument of [generateImageFromImageAndText]: [File | string]. *)
Inductive ImageSource (File : Type) : Type :=
| FromFile (file : File)
| FromDataUrl (dataUrl : string).

Arguments FromFile {File} file.
Arguments FromDataUrl {File} dataUrl.

Definition noImagesMessage : string :=
  "The AI model did not return any images. This may be due to safety filters or a problem with the prompt.".

Definition blockedMessage (blockReason blockReasonMessage : string) : string :=
  "Request was blocked. Reason: " ++ blockReason ++ ". " ++ blockReasonMessage.

Definition stoppedMessage (finishReason : string) : string :=
  "Image generation stopped unexpectedly. Reason: " ++ finishReason
  ++ ". This often relates to safety settings.".

Definition noImagePrefix : string := "The AI model did not return an image. ".

Definition textFeedbackTail (textFeedback : string) : string :=
  "The model responded with text: " ++ dquote ++ textFeedback ++ dquote.

Definition genericNoImageTail : string :=
  "This can happen due to safety filters or if the request is too complex. Please try rephrasing your prompt to be more direct.".

(** [`data:${mimeType};base64,${data}`] *)
Definition dataUrlOf (mimeType data : string) : string :=
  "data:" ++ mimeType ++ ";base64," ++ data.

(** [response.candidates?.[0]] *)
Definition firstCandidate (response : Sdk.GenerateContentResponse)
  : option Sdk.Candidate :=
  chain (Sdk.candidates response) (@hd_error Sdk.Candidate).

(** [response.candidates?.[0]?.content?.parts] *)
Definition partsOfFirstCandidate (response : Sdk.GenerateContentResponse)
  : option (list Sdk.Part) :=
  chain (chain (firstCandidate response) Sdk.content) Sdk.parts.

(** [response.candidates?.[0]?.content?.parts?.find(part => part.inlineData)] *)
Definition imagePartFromResponse (response : Sdk.GenerateContentResponse)
  : option Sdk.Part :=
  chain (partsOfFirstCandidate response)
        (find (fun part => isSome (Sdk.inlineData part))).

(** Steps 1 to 3 of [generateImageFromImageAndText], from the response on:
    the prompt-block test, the search for an image part, the finish
    reason, and the text or generic fallback. *)
Definition interpretResponse (response : Sdk.GenerateContentResponse)
  : Completion string :=
  let blockReason := chain (Sdk.promptFeedback response) Sdk.blockReason in
  if truthy blockReason then
    let blockReasonMessage :=
      chain (Sdk.promptFeedback response) Sdk.blockReasonMessage in
    Throw (Error (blockedMessage (toText blockReason)
                                 (orElse blockReasonMessage "")))
  else
    match chain (imagePartFromResponse response) Sdk.inlineData with
    | Some blob => Return (dataUrlOf (Sdk.mimeType blob) (Sdk.data blob))
    | None =>
        let finishReason := chain (firstCandidate response) Sdk.finishReason in
        if truthy finishReason && negb (toText finishReason =? "STOP")
        then Throw (Error (stoppedMessage (toText finishReason)))
        else
          let textFeedback := option_map trim (Sdk.text response) in
          Throw (Error (noImagePrefix ++
                        (if truthy textFeedback
                         then textFeedbackTail (toText textFeedback)
                         else genericNoImageTail)))
    end.

(** [`data:image/png;base64,${base64ImageBytes}`] for one returned image. *)
Definition pngDataUrl (img : Sdk.GeneratedImage) : string :=
  "data:image/png;base64," ++ Sdk.imageBytes (Sdk.image img).

(** From the response on, the rest of [generateImageFromText]. *)
Definition imagesOfResponse (response : Sdk.GenerateImagesResponse)
  : Completion (list string) :=
  match Sdk.generatedImages response with
  | None => Throw (Error noImagesMessage)
  | Some imgs =>
      if (length imgs =? 0)%nat then Throw (Error noImagesMessage)
      else Return (map pngDataUrl imgs)
  end.

(** What the module calls outside itself: the browser's
    [FileReader.readAsDataURL], wrapped in a promise; the construction of
    the client, [new GoogleGenAI({ apiKey: process.env.API_KEY })]; and
    the two remote calls [ai.models.generateContent] and
    [ai.models.generateImages]. *)
Record Environment (File : Type) : Type :=
  { readAsDataURL : File -> Completion string;
    newGoogleGenAI : Completion unit;
    generateContent :
      Sdk.GenerateContentParameters -> Completion Sdk.GenerateContentResponse;
    generateImages :
      Sdk.GenerateImagesParameters -> Completion Sdk.GenerateImagesResponse }.

Arguments readAsDataURL {File} _ file.
Arguments newGoogleGenAI {File} _.
Arguments generateContent {File} _ request.
Arguments generateImages {File} _ request.

Section Service.

Variable File : Type.
Variable env : Environment File.

Definition fileToPart (file : File) : Completion ImagePart :=
  dataUrl <- readAsDataURL env file ;;
  match split "," dataUrl with
  | header :: payload :: _ =>
      match matchColonGroupSemicolon header with
      | None => Throw (Error "Could not parse MIME type from data URL")
      | Some EmptyString =>
          Throw (Error "Could not parse MIME type from data URL")
      | Some mimeType =>
          Return {| inlineData :=
                      {| Sdk.mimeType := mimeType; Sdk.data := payload |} |}
      end
  | _ => Throw (Error "Invalid data URL")
  end.

Definition imagesRequest (prompt : string) (aspectRatio : AspectRatio)
  : Sdk.GenerateImagesParameters :=
  {| Sdk.imagesModel := "imagen-4.0-generate-001";
     Sdk.imagesPrompt := prompt;
     Sdk.numberOfImages := 1;
     Sdk.outputMimeType := "image/png";
     Sdk.aspectRatio := aspectRatio |}.

Definition generateImageFromText (prompt : string) (aspectRatio : AspectRatio)
  : Completion (list string) :=
  ai <- newGoogleGenAI env ;;
  response <- generateImages env (imagesRequest prompt aspectRatio) ;;
  imagesOfResponse response.

Definition contentRequest (originalImagePart : ImagePart) (userPrompt : string)
  : Sdk.GenerateContentParameters :=
  {| Sdk.contentModel := "gemini-2.5-flash-image-preview";
     Sdk.contentsParts :=
       [Sdk.InlineDataPart (inlineData originalImagePart);
        Sdk.TextPart userPrompt];
     Sdk.responseModalities := [Sdk.IMAGE; Sdk.TEXT] |}.

(** The encoding step of [generateImageFromImageAndText]. *)
Definition originalImagePartOf (originalImage : ImageSource File)
  : Completion ImagePart :=
  match originalImage with
  | FromDataUrl dataUrl => dataUrlToPart dataUrl
  | FromFile file => fileToPart file
  end.

Definition generateImageFromImageAndText
  (originalImage : ImageSource File) (userPrompt : string)
  : Completion string :=
  ai <- newGoogleGenAI env ;;
  originalImagePart <- originalImagePartOf originalImage ;;
  response <- generateContent env
                (contentRequest originalImagePart userPrompt) ;;
  interpretResponse response.

End Service.

Arguments fileToPart {File} env file.
Arguments generateImageFromText {File} env prompt aspectRatio.
Arguments originalImagePartOf {File} env originalImage.
Arguments generateImageFromImageAndText {File} env originalImage userPrompt.

End GeminiService.

(* ===================================================================== *)
(** ** App.tsx: the state of the [App] component and its handlers         *)
(* ===================================================================== *)

Module App.

Import GeminiService.

(** The [useState] cells of [App]. *)
Record AppState (File : Type) : Type :=
  { prompt : string;
    aspectRatio : AspectRatio;
    generatedImages : list string;
    isLoading : bool;
    error : option string;
    promptHistory : list string;
    uploadedImage : option File;
    uploadedImageUrl : option string;
    activeImageUrl : option string;
    editPrompt : string;
    loadingMessage : string;
    isUploadPanelOpen : bool }.

Arguments prompt {File} _.
Arguments aspectRatio {File} _.
Arguments generatedImages {File} _.
Arguments isLoading {File} _.
Arguments error {File} _.
Arguments promptHistory {File} _.
Arguments uploadedImage {File} _.
Arguments uploadedImageUrl {File} _.
Arguments activeImageUrl {File} _.
Arguments editPrompt {File} _.
Arguments loadingMessage {File} _.
Arguments isUploadPanelOpen {File} _.

(** The state of the first render. *)
Definition initialState (File : Type) : AppState File :=
  {| prompt := "";
     aspectRatio := Ratio_1_1;
     generatedImages := [];
     isLoading := false;
     error := None;
     promptHistory := [];
     uploadedImage := None;
     uploadedImageUrl := None;
     activeImageUrl := None;
     editPrompt := "";
     loadingMessage := "AI is creating...";
     isUploadPanelOpen := false |}.

(** What a handler does, in program order: a call of a state setter, or
    the [await] of a request function together with how it settled. *)
Inductive Update (File : Type) : Type :=
| SetPrompt (value : string)
| SetAspectRatio (value : AspectRatio)
| AppendGeneratedImages (newImages : list string)
| SetIsLoading (value : bool)
| SetError (value : option string)
| SetPromptHistory (value : list string)
| SetUploadedImage (value : option File)
| SetUploadedImageUrl (value : option string)
| SetActiveImageUrl (value : option string)
| SetEditPrompt (value : string)
| SetLoadingMessage (value : string)
| SetIsUploadPanelOpen (value : bool)
| AwaitImage (outcome : Completion string)
| AwaitImages (outcome : Completion (list string)).

Arguments SetPrompt {File} value.
Arguments SetAspectRatio {File} value.
Arguments AppendGeneratedImages {File} newImages.
Arguments SetIsLoading {File} value.
Arguments SetError {File} value.
Arguments SetPromptHistory {File} value.
Arguments SetUploadedImage {File} value.
Arguments SetUploadedImageUrl {File} value.
Arguments SetActiveImageUrl {File} value.
Arguments SetEditPrompt {File} value.
Arguments SetLoadingMessage {File} value.
Arguments SetIsUploadPanelOpen {File} value.
Arguments AwaitImage {File} outcome.
Arguments AwaitImages {File} outcome.

(** The five handlers that call a request function. *)
Inductive Handler : Type :=
| HandleGenerate
| HandleUpscale
| HandleApplyFilter (filterPrompt : string)
| HandleEditWithPrompt
| HandleChangeAspectRatio (newAspectRatio : AspectRatio).

Definition upscalePrompt : string :=
  "Upscale this image, increasing its resolution and enhancing details. Make it sharper and clearer without altering the content.".

Definition editInstruction (newAspectRatio : AspectRatio) : string :=
  "Render this image at a new aspect ratio of "
  ++ aspectRatioText newAspectRatio
  ++ ". Intelligently expand the scene and composition to fill the new dimensions. Do not crop, stretch, or distort the original subject.".

(** [err.message || 'An unknown error occurred.'] *)
Definition errorText (err : Thrown) : string :=
  orElse (message err) "An unknown error occurred.".

Section Component.

Variable File : Type.
Variable env : Environment File.

Let State : Type := AppState File.
Let Updates : Type := list (Update File).

Definition isAwait (u : Update File) : bool :=
  match u with
  | AwaitImage _ | AwaitImages _ => true
  | _ => false
  end.

(** The exception an awaited request rejected with, if it did. *)
Definition failureOf (u : Update File) : option Thrown :=
  match u with
  | AwaitImage (Throw err) => Some err
  | AwaitImages (Throw err) => Some err
  | _ => None
  end.

(** The effect of one update on the state.  Appending to
    [generatedImages] uses the functional updater, applied to the state of
    that moment, and triggers the [useEffect] that makes the last image
    the active one. *)
Definition apply (s : State) (u : Update File) : State :=
  match u with
  | SetPrompt v =>
      {| prompt := v; aspectRatio := aspectRatio s;
         generatedImages := generatedImages s; isLoading := isLoading s;
         error := error s; promptHistory := promptHistory s;
         uploadedImage := uploadedImage s;
         uploadedImageUrl := uploadedImageUrl s;
         activeImageUrl := activeImageUrl s; editPrompt := editPrompt s;
         loadingMessage := loadingMessage s;
         isUploadPanelOpen := isUploadPanelOpen s |}
  | SetAspectRatio v =>
      {| prompt := prompt s; aspectRatio := v;
         generatedImages := generatedImages s; isLoading := isLoading s;
         error := error s; promptHistory := promptHistory s;
         uploadedImage := uploadedImage s;
         uploadedImageUrl := uploadedImageUrl s;
         activeImageUrl := activeImageUrl s; editPrompt := editPrompt s;
         loadingMessage := loadingMessage s;
         isUploadPanelOpen := isUploadPanelOpen s |}
  | AppendGeneratedImages newImages =>
      let images := (generatedImages s ++ newImages)%list in
      {| prompt := prompt s; aspectRatio := aspectRatio s;
         generatedImages := images; isLoading := isLoading s;
         error := error s; promptHistory := promptHistory s;
         uploadedImage := uploadedImage s;
         uploadedImageUrl := uploadedImageUrl s;
         activeImageUrl :=
           if (0 <? length images)%nat
           then nth_error images (length images - 1)
           else activeImageUrl s;
         editPrompt := editPrompt s;
         loadingMessage := loadingMessage s;
         isUploadPanelOpen := isUploadPanelOpen s |}
  | SetIsLoading v =>
      {| prompt := prompt s; aspectRatio := aspectRatio s;
         generatedImages := generatedImages s; isLoading := v;
         error := error s; promptHistory := promptHistory s;
         uploadedImage := uploadedImage s;
         uploadedImageUrl := uploadedImageUrl s;
         activeImageUrl := activeImageUrl s; editPrompt := editPrompt s;
         loadingMessage := loadingMessage s;
         isUploadPanelOpen := isUploadPanelOpen s |}
  | SetError v =>
      {| prompt := prompt s; aspectRatio := aspectRatio s;
         generatedImages := generatedImages s; isLoading := isLoading s;
         error := v; promptHistory := promptHistory s;
         uploadedImage := uploadedImage s;
         uploadedImageUrl := uploadedImageUrl s;
         activeImageUrl := activeImageUrl s; editPrompt := editPrompt s;
         loadingMessage := loadingMessage s;
         isUploadPanelOpen := isUploadPanelOpen s |}
  | SetPromptHistory v =>
      {| prompt := prompt s; aspectRatio := aspectRatio s;
         generatedImages := generatedImages s; isLoading := isLoading s;
         error := error s; promptHistory := v;
         uploadedImage := uploadedImage s;
         uploadedImageUrl := uploadedImageUrl s;
         activeImageUrl := activeImageUrl s; editPrompt := editPrompt s;
         loadingMessage := loadingMessage s;
         isUploadPanelOpen := isUploadPanelOpen s |}
  | SetUploadedImage v =>
      {| prompt := prompt s; aspectRatio := aspectRatio s;
         generatedImages := generatedImages s; isLoading := isLoading s;
         error := error s; promptHistory := promptHistory s;
         uploadedImage := v;
         uploadedImageUrl := uploadedImageUrl s;
         activeImageUrl := activeImageUrl s; editPrompt := editPrompt s;
         loadingMessage := loadingMessage s;
         isUploadPanelOpen := isUploadPanelOpen s |}
  | SetUploadedImageUrl v =>
      {| prompt := prompt s; aspectRatio := aspectRatio s;
         generatedImages := generatedImages s; isLoading := isLoading s;
         error := error s; promptHistory := promptHistory s;
         uploadedImage := uploadedImage s;
         uploadedImageUrl := v;
         activeImageUrl := activeImageUrl s; editPrompt := editPrompt s;
         loadingMessage := loadingMessage s;
         isUploadPanelOpen := isUploadPanelOpen s |}
  | SetActiveImageUrl v =>
      {| prompt := prompt s; aspectRatio := aspectRatio s;
         generatedImages := generatedImages s; isLoading := isLoading s;
         error := error s; promptHistory := promptHistory s;
         uploadedImage := uploadedImage s;
         uploadedImageUrl := uploadedImageUrl s;
         activeImageUrl := v; editPrompt := editPrompt s;
         loadingMessage := loadingMessage s;
         isUploadPanelOpen := isUploadPanelOpen s |}
  | SetEditPrompt v =>
      {| prompt := prompt s; aspectRatio := aspectRatio s;
         generatedImages := generatedImages s; isLoading := isLoading s;
         error := error s; promptHistory := promptHistory s;
         uploadedImage := uploadedImage s;
         uploadedImageUrl := uploadedImageUrl s;
         activeImageUrl := activeImageUrl s; editPrompt := v;
         loadingMessage := loadingMessage s;
         isUploadPanelOpen := isUploadPanelOpen s |}
  | SetLoadingMessage v =>
      {| prompt := prompt s; aspectRatio := aspectRatio s;
         generatedImages := generatedImages s; isLoading := isLoading s;
         error := error s; promptHistory := promptHistory s;
         uploadedImage := uploadedImage s;
         uploadedImageUrl := uploadedImageUrl s;
         activeImageUrl := activeImageUrl s; editPrompt := editPrompt s;
         loadingMessage := v;
         isUploadPanelOpen := isUploadPanelOpen s |}
  | SetIsUploadPanelOpen v =>
      {| prompt := prompt s; aspectRatio := aspectRatio s;
         generatedImages := generatedImages s; isLoading := isLoading s;
         error := error s; promptHistory := promptHistory s;
         uploadedImage := uploadedImage s;
         uploadedImageUrl := uploadedImageUrl s;
         activeImageUrl := activeImageUrl s; editPrompt := editPrompt s;
         loadingMessage := loadingMessage s;
         isUploadPanelOpen := v |}
  | AwaitImage _ => s
  | AwaitImages _ => s
  end.

(** The state after a sequence of updates. *)
Definition run (s : State) (us : Updates) : State := fold_left apply us s.

(** [catch (err) { setError(err.message || ...) } finally { setIsLoading(false) }]
    after the body of a [try] whose request settled with [outcome]. *)
Definition settle {A : Type} (outcome : Completion A) (onSuccess : A -> Updates)
  : Updates :=
  (match outcome with
   | Return a => onSuccess a
   | Throw err => [SetError (Some (errorText err))]
   end
   ++ [SetIsLoading false])%list.

Definition handleGenerate (s : State) : Updates :=
  if negb (truthy (Some (trim (prompt s)))) && negb (isSome (uploadedImage s))
  then [SetError (Some "Please enter a prompt or upload an image.")]
  else
    ([SetIsLoading true; SetError None]
    ++ (if negb (includes (promptHistory s) (prompt s))
           && truthy (Some (trim (prompt s)))
        then [SetPromptHistory (slice0 10 (prompt s :: promptHistory s))]
        else [])
    ++ match uploadedImage s with
       | Some file =>
           let outcome :=
             generateImageFromImageAndText env (FromFile file) (prompt s) in
           SetLoadingMessage "AI is editing..."
           :: AwaitImage outcome
           :: settle outcome (fun newImage =>
                [AppendGeneratedImages [newImage];
                 SetUploadedImage None;
                 SetUploadedImageUrl None;
                 SetIsUploadPanelOpen false])
       | None =>
           let outcome :=
             generateImageFromText env (prompt s) (aspectRatio s) in
           SetLoadingMessage "AI is creating..."
           :: AwaitImages outcome
           :: settle outcome (fun newImages =>
                [AppendGeneratedImages newImages;
                 SetUploadedImage None;
                 SetUploadedImageUrl None;
                 SetIsUploadPanelOpen false])
       end)%list.

(** The common shape of the four edit handlers once their guards have
    passed: flags, loading message, the request on the active image, and
    the success continuation. *)
Definition editActiveImage (url : string) (message instruction : string)
  (onSuccess : string -> Updates) : Updates :=
  let outcome :=
    generateImageFromImageAndText env (FromDataUrl url) instruction in
  ([SetIsLoading true; SetError None; SetLoadingMessage message;
    AwaitImage outcome]
   ++ settle outcome onSuccess)%list.

Definition handleUpscale (s : State) : Updates :=
  match activeImageUrl s with
  | Some (String _ _ as url) =>
      editActiveImage url "Upscaling image..." upscalePrompt
        (fun newImage => [SetActiveImageUrl (Some newImage)])
  | _ => [SetError (Some "No active image to upscale.")]
  end.

Definition handleApplyFilter (filterPrompt : string) (s : State) : Updates :=
  match activeImageUrl s with
  | Some (String _ _ as url) =>
      editActiveImage url "Applying filter..." filterPrompt
        (fun newImage => [SetActiveImageUrl (Some newImage)])
  | _ => [SetError (Some "No active image to apply a filter to.")]
  end.

Definition handleEditWithPrompt (s : State) : Updates :=
  match activeImageUrl s with
  | Some (String _ _ as url) =>
      if negb (truthy (Some (trim (editPrompt s))))
      then [SetError (Some "Please enter an edit instruction.")]
      else
        editActiveImage url "Applying your edit..." (editPrompt s)
          (fun newImage => [SetActiveImageUrl (Some newImage); SetEditPrompt ""])
  | _ => [SetError (Some "No active image to edit.")]
  end.

Definition handleChangeAspectRatio (newAspectRatio : AspectRatio) (s : State)
  : Updates :=
  match activeImageUrl s with
  | Some (String _ _ as url) =>
      editActiveImage url "Changing aspect ratio..."
        (editInstruction newAspectRatio)
        (fun newImage => [SetActiveImageUrl (Some newImage)])
  | _ => [SetError (Some "No active image to edit.")]
  end.

Definition handlerUpdates (h : Handler) (s : State) : Updates :=
  match h with
  | HandleGenerate => handleGenerate s
  | HandleUpscale => handleUpscale s
  | HandleApplyFilter filterPrompt => handleApplyFilter filterPrompt s
  | HandleEditWithPrompt => handleEditWithPrompt s
  | HandleChangeAspectRatio newAspectRatio =>
      handleChangeAspectRatio newAspectRatio s
  end.

(** Everything the user interface can do to the state: the five request
    handlers, run to completion, and the plain setters wired to the
    controls. *)
Inductive Event : Type :=
| Invoke (h : Handler)
| PromptChanged (value : string)
| AspectRatioChosen (value : AspectRatio)
| UploadPanelToggled
| ImageUploaded (file : option File) (objectUrl : string)
| UploadedImageRemoved
| EditPromptChanged (value : string)
| ErrorDismissed.

Definition eventUpdates (ev : Event) (s : State) : Updates :=
  match ev with
  | Invoke h => handlerUpdates h s
  | PromptChanged value => [SetPrompt value]
  | AspectRatioChosen value => [SetAspectRatio value]
  | UploadPanelToggled => [SetIsUploadPanelOpen (negb (isUploadPanelOpen s))]
  | ImageUploaded (Some file) objectUrl =>
      [SetUploadedImage (Some file); SetUploadedImageUrl (Some objectUrl)]
  | ImageUploaded None _ => []
  | UploadedImageRemoved => [SetUploadedImage None; SetUploadedImageUrl None]
  | EditPromptChanged value => [SetEditPrompt value]
  | ErrorDismissed => [SetError None]
  end.

Definition step (s : State) (ev : Event) : State := run s (eventUpdates ev s).

(** The state after a session: a sequence of events from the first render,
    each handler running to completion before the next event. *)
Definition session (evs : list Event) : State :=
  fold_left step evs (initialState File).

(** The running component: the committed state and, for every handler
    invocation still in flight, the updates it has yet to make. *)
Record Config : Type :=
  { current : State;
    inFlight : list Updates }.

(** The configurations the component can reach.  An event computes its
    updates from the state of that moment; the updates of the invocations
    in flight are then made one at a time, in program order within an
    invocation and in any order across invocations. *)
Inductive Reachable : Config -> Prop :=
| reach_mount :
    Reachable {| current := initialState File; inFlight := [] |}
| reach_event (c : Config) (ev : Event) :
    Reachable c ->
    Reachable {| current := current c;
                 inFlight := eventUpdates ev (current c) :: inFlight c |}
| reach_update (c : Config) (before after : list Updates)
    (u : Update File) (us : Updates) :
    Reachable c ->
    inFlight c = (before ++ (u :: us) :: after)%list ->
    Reachable {| current := apply (current c) u;
                 inFlight := (before ++ us :: after)%list |}.

End Component.

Arguments isAwait {File} u.
Arguments failureOf {File} u.
Arguments apply {File} s u.
Arguments run {File} s us.
Arguments settle {File A} outcome onSuccess.
Arguments handleGenerate {File} env s.
Arguments editActiveImage {File} env url message instruction onSuccess.
Arguments handleUpscale {File} env s.
Arguments handleApplyFilter {File} env filterPrompt s.
Arguments handleEditWithPrompt {File} env s.
Arguments handleChangeAspectRatio {File} env newAspectRatio s.
Arguments handlerUpdates {File} env h s.
Arguments Invoke {File} h.
Arguments PromptChanged {File} value.
Arguments AspectRatioChosen {File} value.
Arguments UploadPanelToggled {File}.
Arguments ImageUploaded {File} file objectUrl.
Arguments UploadedImageRemoved {File}.
Arguments EditPromptChanged {File} value.
Arguments ErrorDismissed {File}.
Arguments eventUpdates {File} env ev s.
Arguments step {File} env s ev.
Arguments session {File} env evs.
Arguments current {File} _.
Arguments inFlight {File} _.
Arguments Reachable {File} env _.

(** *** What the component renders from the state *)

Section Render.

Variable File : Type.

(** [disabled={isLoading || (!prompt.trim() && !uploadedImage)}] on the
    Generate button. *)
Definition generateDisabled (s : AppState File) : bool :=
  isLoading s
  || (negb (truthy (Some (trim (prompt s)))) && negb (isSome (uploadedImage s))).

(** [disabled={isLoading || !activeImageUrl || !editPrompt.trim()}] on the
    Apply button of the edit prompt. *)
Definition applyDisabled (s : AppState File) : bool :=
  isLoading s
  || negb (truthy (activeImageUrl s))
  || negb (truthy (Some (trim (editPrompt s)))).

(** [disabled={isLoading || !activeImageUrl}] on the upscale button, on
    every filter button and on every aspect-ratio edit button. *)
Definition editDisabled (s : AppState File) : bool :=
  isLoading s || negb (truthy (activeImageUrl s)).

(** The [disabled] attribute of the button whose [onClick] is the handler. *)
Definition buttonDisabled (h : Handler) (s : AppState File) : bool :=
  match h with
  | HandleGenerate => generateDisabled s
  | HandleEditWithPrompt => applyDisabled s
  | HandleUpscale => editDisabled s
  | HandleApplyFilter _ => editDisabled s
  | HandleChangeAspectRatio _ => editDisabled s
  end.

(** [{error && (...)}]: whether the canvas shows the error banner. *)
Definition errorShown (s : AppState File) : bool := truthy (error s).

(** [p.length > 20 ? `${p.substring(0, 20)}...` : p]: the label of a
    history button. *)
Definition historyLabel (p : string) : string :=
  if (20 <? String.length p)%nat then substring 0 20 p ++ "..." else p.

End Render.

Arguments generateDisabled {File} s.
Arguments applyDisabled {File} s.
Arguments editDisabled {File} s.
Arguments buttonDisabled {File} h s.
Arguments errorShown {File} s.

End App.

(* ===================================================================== *)
(** ** Vocabulary of the properties                                       *)
(* ===================================================================== *)

(** [occurs c s]: the character [c] occurs in [s]. *)
Fixpoint occurs (c : ascii) (s : string) : bool :=
  match s with
  | EmptyString => false
  | String d s' => Ascii.eqb d c || occurs c s'
  end.

(** [hasLineBreak s]: some character of [s] is a line terminator. *)
Fixpoint hasLineBreak (s : string) : bool :=
  match s with
  | EmptyString => false
  | String d s' => isLineTerminator d || hasLineBreak s'
  end.

(** A MIME type the pattern of the encoder can capture: non-empty, with
    no [;], no [,] and no line terminator. *)
Definition capturable (mimeType : string) : bool :=
  truthy (Some mimeType)
  && negb (occurs ";" mimeType)
  && negb (occurs "," mimeType)
  && negb (hasLineBreak mimeType).

(** The part an encoder returns for a MIME type and a payload. *)
Definition partOf (mimeType data : string) : GeminiService.ImagePart :=
  {| GeminiService.inlineData :=
       {| Sdk.mimeType := mimeType; Sdk.data := data |} |}.

(** [promptFeedback?.blockReason] of a response. *)
Definition blockReasonOf (response : Sdk.GenerateContentResponse)
  : option string :=
  chain (Sdk.promptFeedback response) Sdk.blockReason.

(** [candidates?.[0]?.finishReason] of a response. *)
Definition finishReasonOf (response : Sdk.GenerateContentResponse)
  : option string :=
  chain (GeminiService.firstCandidate response) Sdk.finishReason.

(** No part of the first candidate carries inline data. *)
Definition noInlineData (response : Sdk.GenerateContentResponse) : Prop :=
  forall ps part,
    GeminiService.partsOfFirstCandidate response = Some ps ->
    In part ps -> Sdk.inlineData part = None.

(** The five kinds of result of the image-edit request. *)
Inductive ResultClass : Type :=
| Artifact | PromptBlocked | StoppedEarly | TextFeedback | NoImage.

(** Membership of a completion in a class, by the shape of the returned
    URL or of the thrown message. *)
Definition inClass (r : Completion string) (c : ResultClass) : Prop :=
  match c with
  | Artifact =>
      exists mimeType data,
        r = Return ("data:" ++ mimeType ++ ";base64," ++ data)
  | PromptBlocked =>
      exists reason detail,
        r = Throw (Error ("Request was blocked. Reason: " ++ reason
                          ++ ". " ++ detail))
  | StoppedEarly =>
      exists reason,
        r = Throw (Error ("Image generation stopped unexpectedly. Reason: "
                          ++ reason
                          ++ ". This often relates to safety settings."))
  | TextFeedback =>
      exists feedback,
        r = Throw (Error ("The AI model did not return an image. The model responded with text: "
                          ++ dquote ++ feedback ++ dquote))
  | NoImage =>
      r = Throw (Error "The AI model did not return an image. This can happen due to safety filters or if the request is too complex. Please try rephrasing your prompt to be more direct.")
  end.

(** The service answered the edit request for [originalImage] and
    [userPrompt] with [response]: the client was constructed, the image
    was encoded and the remote call resolved. *)
Definition answers {File : Type} (env : GeminiService.Environment File)
  (originalImage : GeminiService.ImageSource File) (userPrompt : string)
  (response : Sdk.GenerateContentResponse) : Prop :=
  GeminiService.newGoogleGenAI env = Return tt
  /\ exists part,
       GeminiService.originalImagePartOf env originalImage = Return part
       /\ GeminiService.generateContent env
            (GeminiService.contentRequest part userPrompt)
          = Return response.

(** The service answered the text request with [response]. *)
Definition answersText {File : Type} (env : GeminiService.Environment File)
  (prompt : string) (aspectRatio : AspectRatio)
  (response : Sdk.GenerateImagesResponse) : Prop :=
  GeminiService.newGoogleGenAI env = Return tt
  /\ GeminiService.generateImages env
       (GeminiService.imagesRequest prompt aspectRatio)
     = Return response.

(** The invariant of the prompt history. *)
Definition historyInvariant (history : list string) : Prop :=
  length history <= 10 /\ NoDup history.

(** [allWhiteSpace s]: every character of [s] is one that [trim] strips. *)
Fixpoint allWhiteSpace (s : string) : bool :=
  match s with
  | EmptyString => true
  | String c s' => isWhiteSpace c && allWhiteSpace s'
  end.

(** The number of requests a sequence of updates awaits. *)
Definition requestsIssued {File : Type} (us : list (App.Update File)) : nat :=
  length (filter App.isAwait us).

(** The images an awaited request resolved with, if it resolved. *)
Definition imagesOf {File : Type} (u : App.Update File) : option (list string) :=
  match u with
  | App.AwaitImage (Return newImage) => Some [newImage]
  | App.AwaitImages (Return newImages) => Some newImages
  | _ => None
  end.

(** A URL of the form [data:<mimeType>;base64,<data>]. *)
Definition isDataUrl (url : string) : Prop :=
  exists mimeType data, url = GeminiService.dataUrlOf mimeType data.

(** The invariants of the state that the later sections establish: the
    error flag is never the empty string; every image URL held is a data
    URL; no prompt of the history is blank. *)
Definition errorIsShowable {File : Type} (s : App.AppState File) : Prop :=
  App.error s <> Some EmptyString.

Definition holdsDataUrls {File : Type} (s : App.AppState File) : Prop :=
  Forall isDataUrl (App.generatedImages s)
  /\ forall url, App.activeImageUrl s = Some url -> isDataUrl url.

Definition historyHasNoBlank {File : Type} (s : App.AppState File) : Prop :=
  Forall (fun p => allWhiteSpace p = false) (App.promptHistory s).

(** What an update must satisfy for each of these to be kept. *)
Definition keepsErrorShowable {File : Type} (u : App.Update File) : Prop :=
  match u with
  | App.SetError value => value <> Some EmptyString
  | _ => True
  end.

Definition keepsDataUrls {File : Type} (u : App.Update File) : Prop :=
  match u with
  | App.AppendGeneratedImages newImages => Forall isDataUrl newImages
  | App.SetActiveImageUrl value => forall url, value = Some url -> isDataUrl url
  | _ => True
  end.

Definition keepsNoBlank {File : Type} (u : App.Update File) : Prop :=
  match u with
  | App.SetPromptHistory value =>
      Forall (fun p => allWhiteSpace p = false) value
  | _ => True
  end.

(** What holds after every completed event of a session: nothing is
    loading; the uploaded image and its preview are both set or both
    unset; a gallery that is not empty has an active image. *)
Definition settled {File : Type} (s : App.AppState File) : Prop :=
  App.isLoading s = false
  /\ isSome (App.uploadedImage s) = isSome (App.uploadedImageUrl s)
  /\ (App.generatedImages s <> [] -> isSome (App.activeImageUrl s) = true).

(** The four handlers that edit the active image. *)
Definition editsActiveImage (h : App.Handler) : bool :=
  match h with
  | App.HandleGenerate => false
  | _ => true
  end.

(** An update that keeps the invariant: it writes no history, or one that
    satisfies the invariant. *)
Definition keepsHistory {File : Type} (u : App.Update File) : Prop :=
  match u with
  | App.SetPromptHistory value => historyInvariant value
  | _ => True
  end.

(* ===================================================================== *)
(** ** Sample files, services, responses and states                       *)
(* ===================================================================== *)

Definition sampleUrl : string := "data:image/png;base64,iVBORw0KGgo=".

(** An environment with one file, which reads as [sampleUrl], and a
    service whose two calls settle as given whatever the request. *)
Definition sampleEnv
  (content : Completion Sdk.GenerateContentResponse)
  (images : Completion Sdk.GenerateImagesResponse)
  : GeminiService.Environment unit :=
  {| GeminiService.readAsDataURL := fun _ => Return sampleUrl;
     GeminiService.newGoogleGenAI := Return tt;
     GeminiService.generateContent := fun _ => content;
     GeminiService.generateImages := fun _ => images |}.

Definition pngBlob : Sdk.Blob :=
  {| Sdk.mimeType := "image/png"; Sdk.data := "iVBORw0KGgo=" |}.

Definition imagePart : Sdk.Part := {| Sdk.inlineData := Some pngBlob |}.

Definition plainPart : Sdk.Part := {| Sdk.inlineData := None |}.

Definition candidateOf (parts : list Sdk.Part) (finishReason : option string)
  : Sdk.Candidate :=
  {| Sdk.content := Some {| Sdk.parts := Some parts |};
     Sdk.finishReason := finishReason |}.

(** A response that is blocked and carries an image all the same. *)
Definition blockedWithImage : Sdk.GenerateContentResponse :=
  {| Sdk.promptFeedback :=
       Some {| Sdk.blockReason := Some "SAFETY";
               Sdk.blockReasonMessage := None |};
     Sdk.candidates := Some [candidateOf [imagePart] (Some "STOP")];
     Sdk.text := None |}.

(** A response whose second part is the image. *)
Definition imageResponse : Sdk.GenerateContentResponse :=
  {| Sdk.promptFeedback := None;
     Sdk.candidates := Some [candidateOf [plainPart; imagePart] (Some "STOP")];
     Sdk.text := Some "Here is the edited image." |}.

(** A response without image that stopped for safety. *)
Definition stoppedResponse : Sdk.GenerateContentResponse :=
  {| Sdk.promptFeedback := None;
     Sdk.candidates := Some [candidateOf [plainPart] (Some "SAFETY")];
     Sdk.text := None |}.

(** A response without image that only talks. *)
Definition textResponse : Sdk.GenerateContentResponse :=
  {| Sdk.promptFeedback := None;
     Sdk.candidates := Some [candidateOf [plainPart] (Some "STOP")];
     Sdk.text := Some "  I cannot edit this image. " |}.

(** A response to the text request with two images. *)
Definition twoImages : Sdk.GenerateImagesResponse :=
  {| Sdk.generatedImages :=
       Some [ {| Sdk.image := {| Sdk.imageBytes := "AAAA" |} |};
              {| Sdk.image := {| Sdk.imageBytes := "BBBB" |} |} ] |}.

(** The state of a session that shows [sampleUrl] as its active image. *)
Definition showingSample : App.AppState unit :=
  App.apply (App.initialState unit) (App.SetActiveImageUrl (Some sampleUrl)).

(** An environment whose service answers every request with images. *)
Definition galleryEnv : GeminiService.Environment unit :=
  sampleEnv (Return imageResponse) (Return twoImages).

(** The state of a session that has generated from one prompt and has
    another prompt typed. *)
Definition typedPrompt : App.AppState unit :=
  App.session galleryEnv
    [App.PromptChanged "a red fox"; App.Invoke App.HandleGenerate;
     App.PromptChanged "a blue whale"].

(** The state of a session whose history is full and that has a new
    prompt typed. *)
Definition fullHistory : App.AppState unit :=
  App.run (App.initialState unit)
    [App.SetPromptHistory
       ["ten"; "nine"; "eight"; "seven"; "six";
        "five"; "four"; "three"; "two"; "one"];
     App.SetPrompt "eleven"].

(** The state that shows [sampleUrl] and has an edit instruction typed. *)
Definition editingSample : App.AppState unit :=
  App.apply showingSample (App.SetEditPrompt "add a hat").

(* ===================================================================== *)
(** ** The payload encoder                                                *)
(* ===================================================================== *)

Section Encoder.

Import GeminiService.

Example split_keeps_empty_pieces :
  split "," "a,b,,c" = ["a"; "b"; ""; "c"] /\ split "," "" = [""].
Proof. split; reflexivity. Qed.

Example trim_strips_both_ends :
  trim (String (ascii_of_nat 9) " a b " ++ String (ascii_of_nat 10) "")
  = "a b".
Proof. reflexivity. Qed.

Example match_is_lazy :
  matchColonGroupSemicolon "data:image/png;base64;x" = Some "image/png".
Proof. reflexivity. Qed.

Example match_starts_at_leftmost_colon :
  matchColonGroupSemicolon "x:data:image/png;base64" = Some "data:image/png".
Proof. reflexivity. Qed.

Example match_restarts_after_line_break :
  matchColonGroupSemicolon ("a:b" ++ String (ascii_of_nat 10) ":c;d")
  = Some "c".
Proof. reflexivity. Qed.

Example match_needs_semicolon :
  matchColonGroupSemicolon "data:image/png" = None.
Proof. reflexivity. Qed.

Lemma occurs_app (c : ascii) (s t : string) :
  occurs c (s ++ t) = occurs c s || occurs c t.
Proof.
  induction s as [|d s IH]; simpl; [reflexivity|].
  rewrite IH. apply orb_assoc.
Qed.

Lemma splitPieces_free (sep : ascii) (s : string) :
  occurs sep s = false -> splitPieces sep s = (s, []).
Proof.
  induction s as [|d s IH]; simpl; intros H; [reflexivity|].
  apply orb_false_iff in H as [Hd Hs].
  rewrite (IH Hs), Hd. reflexivity.
Qed.

Lemma splitPieces_at_first (sep : ascii) (h rest : string) :
  occurs sep h = false ->
  splitPieces sep (h ++ String sep rest) = (h, split sep rest).
Proof.
  induction h as [|d h IH]; simpl; intros H.
  - unfold split. destruct (splitPieces sep rest) as [piece pieces].
    rewrite Ascii.eqb_refl. reflexivity.
  - apply orb_false_iff in H as [Hd Hh].
    rewrite (IH Hh), Hd. reflexivity.
Qed.

Lemma split_header_payload (h p : string) :
  occurs "," h = false -> occurs "," p = false ->
  split "," (h ++ String "," p) = [h; p].
Proof.
  intros Hh Hp. unfold split at 1.
  rewrite (splitPieces_at_first _ _ _ Hh).
  unfold split. rewrite (splitPieces_free _ _ Hp). reflexivity.
Qed.

Lemma lazyUntilSemicolon_captures (m rest : string) :
  occurs ";" m = false -> hasLineBreak m = false ->
  lazyUntilSemicolon (m ++ String ";" rest) = Some m.
Proof.
  induction m as [|d m IH]; simpl; intros Hs Hl; [reflexivity|].
  apply orb_false_iff in Hs as [Hd Hs].
  apply orb_false_iff in Hl as [Hl1 Hl2].
  rewrite Hd, Hl1, (IH Hs Hl2). reflexivity.
Qed.

Lemma match_first_colon (pre m post : string) :
  occurs ":" pre = false ->
  occurs ";" m = false -> hasLineBreak m = false ->
  matchColonGroupSemicolon (pre ++ String ":" (m ++ String ";" post)) = Some m.
Proof.
  intros Hpre Hs Hl.
  induction pre as [|d pre IH]; simpl.
  - rewrite (lazyUntilSemicolon_captures _ _ Hs Hl). reflexivity.
  - simpl in Hpre. apply orb_false_iff in Hpre as [Hd Hpre].
    rewrite Hd. apply IH, Hpre.
Qed.

Lemma capturable_inv (m : string) :
  capturable m = true ->
  m <> EmptyString /\ occurs ";" m = false /\ occurs "," m = false
  /\ hasLineBreak m = false.
Proof.
  unfold capturable. intros H.
  repeat (apply andb_true_iff in H as [H ?]).
  repeat match goal with
         | X : negb _ = true |- _ => apply negb_true_iff in X
         end.
  repeat split; try assumption.
  intros ->. discriminate.
Qed.

(** The encoder on a URL whose first piece holds [:mimeType;] after a
    colon-free prefix and whose second piece is the whole payload. *)
Lemma dataUrlToPart_on_segment (pre m post payload : string) :
  capturable m = true ->
  occurs ":" pre = false -> occurs "," pre = false ->
  occurs "," post = false -> occurs "," payload = false ->
  dataUrlToPart
    ((pre ++ String ":" (m ++ String ";" post)) ++ String "," payload)
  = Return (partOf m payload).
Proof.
  intros Hm Hpre1 Hpre2 Hpost Hpay.
  apply capturable_inv in Hm as (Hne & Hsemi & Hcomma & Hbreak).
  unfold dataUrlToPart.
  rewrite split_header_payload; [| | assumption].
  - rewrite (match_first_colon _ _ _ Hpre1 Hsemi Hbreak).
    destruct m; [congruence | reflexivity].
  - rewrite occurs_app. simpl. rewrite occurs_app. simpl.
    rewrite Hpre2, Hcomma, Hpost. reflexivity.
Qed.

Lemma fileToPart_reads (File : Type) (env : Environment File) (file : File) :
  fileToPart env file = bind (readAsDataURL env file) dataUrlToPart.
Proof. reflexivity. Qed.

(** The tail of the pattern captures exactly the text before the first
    [;], provided no line terminator comes before it. *)
Lemma lazyUntilSemicolon_spec (s group : string) :
  lazyUntilSemicolon s = Some group <->
  exists rest, s = group ++ String ";" rest
               /\ occurs ";" group = false /\ hasLineBreak group = false.
Proof.
  split.
  - revert group. induction s as [|c s IH]; simpl; intros group H;
      [discriminate|].
    destruct (Ascii.eqb c ";") eqn:Hc.
    + injection H as <-. apply Ascii.eqb_eq in Hc as ->.
      exists s. repeat split.
    + destruct (isLineTerminator c) eqn:Hl; [discriminate|].
      destruct (lazyUntilSemicolon s) as [g|]; [|discriminate].
      injection H as <-.
      destruct (IH g eq_refl) as (rest & -> & Hs & Hb).
      exists rest. simpl. rewrite Hc, Hl, Hs, Hb. repeat split.
  - intros (rest & -> & Hs & Hb).
    now apply lazyUntilSemicolon_captures.
Qed.

End Encoder.

Section EncoderClaims.

Import GeminiService.

Variable File : Type.
Variable env : Environment File.

Lemma append_associative (s t u : string) : (s ++ t) ++ u = s ++ (t ++ u).
Proof.
  induction s as [|c s IH]; simpl; [reflexivity|]. now rewrite IH.
Qed.

Lemma dataUrlToPart_flat (pre mimeType post payload : string) :
  capturable mimeType = true ->
  occurs ":" pre = false -> occurs "," pre = false ->
  occurs "," post = false -> occurs "," payload = false ->
  dataUrlToPart (pre ++ ":" ++ mimeType ++ ";" ++ post ++ "," ++ payload)
  = Return (partOf mimeType payload).
Proof.
  intros Hm Hpre1 Hpre2 Hpost Hpay.
  rewrite <- (dataUrlToPart_on_segment pre mimeType post payload)
    by assumption.
  f_equal. simpl.
  rewrite append_associative. simpl. rewrite append_associative.
  reflexivity.
Qed.

(** C7 (as amended).  For a data URL [pre:mimeType;post,payload] whose
    MIME type is non-empty and free of [;], [,] and line terminators, whose
    text before that colon has no colon, whose header has no comma and
    whose payload has no comma, [dataUrlToPart] returns the part
    [{ inlineData: { mimeType, data: payload } }], and so does [fileToPart]
    on a file that reads as that URL. *)
Theorem encoder_returns_mime_and_payload
  (file : File) (pre mimeType post payload : string) :
  capturable mimeType = true ->
  occurs ":" pre = false -> occurs "," pre = false ->
  occurs "," post = false -> occurs "," payload = false ->
  let dataUrl := pre ++ ":" ++ mimeType ++ ";" ++ post ++ "," ++ payload in
  dataUrlToPart dataUrl = Return (partOf mimeType payload)
  /\ (readAsDataURL env file = Return dataUrl ->
      fileToPart env file = Return (partOf mimeType payload)).
Proof.
  intros Hm Hpre1 Hpre2 Hpost Hpay dataUrl.
  assert (Hurl : dataUrlToPart dataUrl = Return (partOf mimeType payload)).
  { subst dataUrl. apply dataUrlToPart_flat; assumption. }
  split; [exact Hurl|].
  intros Hread. rewrite fileToPart_reads, Hread. exact Hurl.
Qed.

End EncoderClaims.

(* ===================================================================== *)
(** ** The response classifier                                            *)
(* ===================================================================== *)

Section Classifier.

Import GeminiService.

Variable File : Type.
Variable env : Environment File.

Local Abbreviation edit := (generateImageFromImageAndText env).
Local Abbreviation answered := (answers env).

(** Once the service has answered, the result of the request function is
    the interpretation of the response. *)
Lemma edit_interprets (originalImage : ImageSource File) (userPrompt : string)
  (response : Sdk.GenerateContentResponse) :
  answered originalImage userPrompt response ->
  edit originalImage userPrompt = interpretResponse response.
Proof.
  intros (Hclient & part & Hpart & Hcall).
  unfold generateImageFromImageAndText.
  rewrite Hclient. simpl. rewrite Hpart. simpl.
  rewrite Hcall. reflexivity.
Qed.

Lemma truthy_some (v : option string) (s : string) :
  v = Some s -> s <> EmptyString -> truthy v = true /\ toText v = s.
Proof.
  intros -> Hs. destruct s; [congruence|]. split; reflexivity.
Qed.

Lemma find_first {A : Type} (f : A -> bool) (before after : list A) (x : A) :
  (forall y, In y before -> f y = false) -> f x = true ->
  find f (before ++ x :: after)%list = Some x.
Proof.
  intros Hb Hx. induction before as [|y before IH]; simpl.
  - now rewrite Hx.
  - rewrite (Hb y (or_introl eq_refl)). apply IH.
    intros z Hz. apply Hb. now right.
Qed.

Lemma no_image_part (response : Sdk.GenerateContentResponse) :
  noInlineData response ->
  chain (imagePartFromResponse response) Sdk.inlineData = None.
Proof.
  intros Hno. unfold imagePartFromResponse.
  destruct (partsOfFirstCandidate response) as [ps|] eqn:Hps; [|reflexivity].
  simpl.
  destruct (find (fun part => isSome (Sdk.inlineData part)) ps)
    as [part|] eqn:Hfind; [|reflexivity].
  simpl. apply find_some in Hfind as [Hin _].
  exact (Hno ps part Hps Hin).
Qed.

(** C2.  When [promptFeedback.blockReason] is set (present and non-empty,
    which is what the source tests), the request function throws
    ["Request was blocked. Reason: <reason>. <message or nothing>"],
    whatever else the response holds, an image part included. *)
Theorem blocked_prompt_takes_priority
  (originalImage : ImageSource File) (userPrompt : string)
  (response : Sdk.GenerateContentResponse) (reason : string) :
  answered originalImage userPrompt response ->
  blockReasonOf response = Some reason -> truthy (Some reason) = true ->
  edit originalImage userPrompt
  = Throw (Error ("Request was blocked. Reason: " ++ reason ++ ". "
                  ++ orElse (chain (Sdk.promptFeedback response)
                                   Sdk.blockReasonMessage) "")).
Proof.
  intros Hans Hreason Hset.
  rewrite (edit_interprets _ _ _ Hans). unfold interpretResponse.
  fold (blockReasonOf response).
  rewrite Hreason, Hset. reflexivity.
Qed.

(** Where a list holds an element that satisfies [f], it splits at the
    first one. *)
Lemma split_at_first {A : Type} (f : A -> bool) (l : list A) :
  (exists x, In x l /\ f x = true) ->
  exists before x after,
    l = (before ++ x :: after)%list
    /\ (forall y, In y before -> f y = false) /\ f x = true.
Proof.
  induction l as [|y l IH]; intros (x & Hin & Hx); [contradiction|].
  destruct (f y) eqn:Hy.
  - exists [], y, l. repeat split; [intros z []|assumption].
  - destruct IH as (before & x' & after & -> & Hbefore & Hx').
    { destruct Hin as [-> | Hin]; [congruence | eauto]. }
    exists (y :: before), x', after. repeat split; [|assumption].
    intros z [<- | Hz]; [assumption | now apply Hbefore].
Qed.

Lemma image_part_found (response : Sdk.GenerateContentResponse)
  (before after : list Sdk.Part) (part : Sdk.Part) (blob : Sdk.Blob) :
  truthy (blockReasonOf response) = false ->
  partsOfFirstCandidate response = Some (before ++ part :: after)%list ->
  (forall p, In p before -> Sdk.inlineData p = None) ->
  Sdk.inlineData part = Some blob ->
  interpretResponse response
  = Return ("data:" ++ Sdk.mimeType blob ++ ";base64," ++ Sdk.data blob).
Proof.
  intros Hblock Hparts Hbefore Hblob.
  unfold interpretResponse.
  fold (blockReasonOf response). rewrite Hblock.
  unfold imagePartFromResponse. rewrite Hparts. simpl.
  rewrite find_first.
  - simpl. rewrite Hblob. reflexivity.
  - intros p Hp. now rewrite (Hbefore p Hp).
  - now rewrite Hblob.
Qed.

(** C3.  When no block reason is set and some part of the first candidate
    carries inline data, the parts split as [before ++ part :: after] with
    no inline data in [before] and inline data [blob] in [part], and the
    request function returns
    ["data:" + blob.mimeType + ";base64," + blob.data]. *)
Theorem first_image_part_is_returned
  (originalImage : ImageSource File) (userPrompt : string)
  (response : Sdk.GenerateContentResponse) (ps : list Sdk.Part) :
  answered originalImage userPrompt response ->
  truthy (blockReasonOf response) = false ->
  partsOfFirstCandidate response = Some ps ->
  (exists p, In p ps /\ Sdk.inlineData p <> None) ->
  exists before part after blob,
    ps = (before ++ part :: after)%list
    /\ (forall p, In p before -> Sdk.inlineData p = None)
    /\ Sdk.inlineData part = Some blob
    /\ edit originalImage userPrompt
       = Return ("data:" ++ Sdk.mimeType blob ++ ";base64," ++ Sdk.data blob).
Proof.
  intros Hans Hblock Hparts (p & Hin & Hp).
  destruct (split_at_first (fun part => isSome (Sdk.inlineData part)) ps)
    as (before & part & after & -> & Hbefore & Hpart).
  { exists p. split; [assumption|].
    destruct (Sdk.inlineData p); [reflexivity | congruence]. }
  destruct (Sdk.inlineData part) as [blob|] eqn:Hblob; [|discriminate].
  assert (Hnone : forall q, In q before -> Sdk.inlineData q = None).
  { intros q Hq. specialize (Hbefore q Hq).
    destruct (Sdk.inlineData q); [discriminate | reflexivity]. }
  exists before, part, after, blob.
  repeat split; try assumption.
  rewrite (edit_interprets _ _ _ Hans).
  now apply (image_part_found response before after part blob).
Qed.

(** C4.  When no block reason is set, no part carries inline data and the
    first candidate's finish reason is set and differs from [STOP], the
    request function throws ["Image generation stopped unexpectedly.
    Reason: <finishReason>. This often relates to safety settings."]. *)
Theorem unexpected_finish_is_reported
  (originalImage : ImageSource File) (userPrompt : string)
  (response : Sdk.GenerateContentResponse) (reason : string) :
  answered originalImage userPrompt response ->
  truthy (blockReasonOf response) = false ->
  noInlineData response ->
  finishReasonOf response = Some reason ->
  truthy (Some reason) = true -> reason <> "STOP" ->
  edit originalImage userPrompt
  = Throw (Error ("Image generation stopped unexpectedly. Reason: "
                  ++ reason ++ ". This often relates to safety settings.")).
Proof.
  intros Hans Hblock Hno Hfin Hset Hstop.
  rewrite (edit_interprets _ _ _ Hans). unfold interpretResponse.
  fold (blockReasonOf response). rewrite Hblock.
  rewrite (no_image_part _ Hno).
  fold (finishReasonOf response).
  rewrite Hfin, Hset. cbn [toText andb].
  apply String.eqb_neq in Hstop. rewrite Hstop. reflexivity.
Qed.

(** C5.  When no block reason is set, no part carries inline data and the
    finish reason is unset or equal to [STOP], the request function throws
    a message that quotes the trimmed response text when that is non-empty
    and that otherwise carries the generic safety-filter explanation. *)
Theorem text_or_generic_fallback
  (originalImage : ImageSource File) (userPrompt : string)
  (response : Sdk.GenerateContentResponse) :
  answered originalImage userPrompt response ->
  truthy (blockReasonOf response) = false ->
  noInlineData response ->
  truthy (finishReasonOf response) = false
  \/ finishReasonOf response = Some "STOP" ->
  (forall t, Sdk.text response = Some t -> trim t <> EmptyString ->
     edit originalImage userPrompt
     = Throw (Error ("The AI model did not return an image. The model responded with text: "
                     ++ dquote ++ trim t ++ dquote)))
  /\ (Sdk.text response = None
      \/ (exists t, Sdk.text response = Some t /\ trim t = EmptyString) ->
      edit originalImage userPrompt
      = Throw (Error "The AI model did not return an image. This can happen due to safety filters or if the request is too complex. Please try rephrasing your prompt to be more direct.")).
Proof.
  intros Hans Hblock Hno Hfin.
  rewrite (edit_interprets _ _ _ Hans). unfold interpretResponse.
  fold (blockReasonOf response). rewrite Hblock.
  rewrite (no_image_part _ Hno).
  fold (finishReasonOf response).
  assert (Hgate : truthy (finishReasonOf response)
                  && negb (toText (finishReasonOf response) =? "STOP")
                  = false).
  { destruct Hfin as [-> | ->]; reflexivity. }
  rewrite Hgate. split.
  - intros t Ht Hne. rewrite Ht. simpl option_map.
    destruct (truthy_some (Some (trim t)) _ eq_refl Hne) as [-> ->].
    reflexivity.
  - intros [-> | (t & -> & Ht)]; simpl option_map; [|rewrite Ht]; reflexivity.
Qed.

(** C9 (as amended).  For every non-empty MIME type without [;], [,] or a
    line terminator and every comma-free payload, [dataUrlToPart] applied to
    ["data:" + mimeType + ";base64," + data] gives back
    [{ inlineData: { mimeType, data } }]; in particular, when the request
    function succeeds on an image part with such inline data, the URL it
    returns encodes back to that inline data. *)
Theorem classifier_output_round_trips (mimeType data : string) :
  capturable mimeType = true ->
  occurs "," data = false ->
  dataUrlToPart (dataUrlOf mimeType data) = Return (partOf mimeType data)
  /\ forall (originalImage : ImageSource File) (userPrompt : string)
            (response : Sdk.GenerateContentResponse),
       answered originalImage userPrompt response ->
       truthy (blockReasonOf response) = false ->
       chain (imagePartFromResponse response) Sdk.inlineData
       = Some {| Sdk.mimeType := mimeType; Sdk.data := data |} ->
       exists dataUrl,
         edit originalImage userPrompt = Return dataUrl
         /\ dataUrlToPart dataUrl = Return (partOf mimeType data).
Proof.
  intros Hm Hd.
  assert (Hurl : dataUrlToPart (dataUrlOf mimeType data)
                 = Return (partOf mimeType data)).
  { unfold dataUrlOf.
    change (dataUrlToPart
              ("data" ++ ":" ++ mimeType ++ ";" ++ "base64" ++ "," ++ data)
            = Return (partOf mimeType data)).
    apply (dataUrlToPart_flat "data" mimeType "base64" data); auto. }
  split; [exact Hurl|].
  intros originalImage userPrompt response Hans Hblock Himg.
  exists (dataUrlOf mimeType data).
  split; [|exact Hurl].
  rewrite (edit_interprets _ _ _ Hans).
  unfold interpretResponse. fold (blockReasonOf response).
  rewrite Hblock, Himg. reflexivity.
Qed.

Lemma interpretResponse_cases (response : Sdk.GenerateContentResponse) :
  (exists reason detail,
     interpretResponse response = Throw (Error (blockedMessage reason detail)))
  \/ (exists blob,
        interpretResponse response
        = Return (dataUrlOf (Sdk.mimeType blob) (Sdk.data blob)))
  \/ (exists reason,
        interpretResponse response = Throw (Error (stoppedMessage reason)))
  \/ (exists feedback,
        interpretResponse response
        = Throw (Error (noImagePrefix ++ textFeedbackTail feedback)))
  \/ interpretResponse response
     = Throw (Error (noImagePrefix ++ genericNoImageTail)).
Proof.
  unfold interpretResponse.
  destruct (truthy (chain (Sdk.promptFeedback response) Sdk.blockReason)).
  { left. eauto. }
  destruct (chain (imagePartFromResponse response) Sdk.inlineData) as [blob|].
  { right; left. eauto. }
  destruct (truthy (chain (firstCandidate response) Sdk.finishReason)
            && negb (toText (chain (firstCandidate response) Sdk.finishReason)
                     =? "STOP")).
  { right; right; left. eauto. }
  destruct (truthy (option_map trim (Sdk.text response))).
  - right; right; right; left. eauto.
  - right; right; right; right. reflexivity.
Qed.

(** A completion lies in at most one class: the classes differ in the
    first characters of the message, or in returning against throwing. *)
Lemma inClass_exclusive (r : Completion string) (c c' : ResultClass) :
  inClass r c -> inClass r c' -> c = c'.
Proof.
  destruct c, c'; try reflexivity; simpl;
    intros Hc Hc';
    repeat match goal with
           | H : exists _, _ |- _ => destruct H
           end;
    subst; simpl in *; congruence.
Qed.

(** C1.  Once the service has answered, the result of the request
    function lies in exactly one of five classes: a returned data URL, or
    a thrown prompt-block, unexpected-stop, text-feedback or generic
    no-image message. *)
Theorem every_response_is_classified
  (originalImage : ImageSource File) (userPrompt : string)
  (response : Sdk.GenerateContentResponse) :
  answered originalImage userPrompt response ->
  exists! c : ResultClass, inClass (edit originalImage userPrompt) c.
Proof.
  intros Hans. rewrite (edit_interprets _ _ _ Hans).
  assert (Hex : exists c, inClass (interpretResponse response) c).
  { destruct (interpretResponse_cases response)
      as [(reason & detail & ->)
         | [(blob & ->)
           | [(reason & ->) | [(feedback & ->) | ->]]]].
    - exists PromptBlocked. exists reason, detail. reflexivity.
    - exists Artifact. exists (Sdk.mimeType blob), (Sdk.data blob).
      reflexivity.
    - exists StoppedEarly. exists reason. reflexivity.
    - exists TextFeedback. exists feedback. reflexivity.
    - exists NoImage. reflexivity. }
  destruct Hex as [c Hc]. exists c. split; [exact Hc|].
  intros c' Hc'. exact (inClass_exclusive _ _ _ Hc Hc').
Qed.

End Classifier.

(* ===================================================================== *)
(** ** The text-to-image request                                          *)
(* ===================================================================== *)

Section TextToImage.

Import GeminiService.

Variable File : Type.
Variable env : Environment File.

(** C6.  Once the service has answered the text request, the request
    function throws exactly when [generatedImages] is absent or empty, and
    then it throws the no-images error; otherwise it returns, in order,
    ["data:image/png;base64," + imageBytes] for each returned image. *)
Theorem text_request_throws_iff_no_images
  (prompt : string) (aspectRatio : AspectRatio)
  (response : Sdk.GenerateImagesResponse) :
  answersText env prompt aspectRatio response ->
  ((exists err, generateImageFromText env prompt aspectRatio = Throw err)
   <-> (Sdk.generatedImages response = None
        \/ Sdk.generatedImages response = Some []))
  /\ (forall err, generateImageFromText env prompt aspectRatio = Throw err ->
        err = Error "The AI model did not return any images. This may be due to safety filters or a problem with the prompt.")
  /\ (forall imgs, Sdk.generatedImages response = Some imgs -> imgs <> [] ->
        generateImageFromText env prompt aspectRatio
        = Return (map (fun img =>
                         "data:image/png;base64,"
                         ++ Sdk.imageBytes (Sdk.image img)) imgs)).
Proof.
  intros [Hclient Hcall]. unfold generateImageFromText.
  rewrite Hclient. simpl. rewrite Hcall. simpl.
  unfold imagesOfResponse.
  destruct (Sdk.generatedImages response) as [[|img imgs]|]; simpl.
  - split; [|split].
    + split; [auto | eauto].
    + intros err [= <-]. reflexivity.
    + intros imgs [= <-] Hne. congruence.
  - split; [|split].
    + split; [intros [err Herr]; discriminate | intros [H|H]; discriminate].
    + intros err Herr. discriminate.
    + intros imgs' [= <-] _. reflexivity.
  - split; [|split].
    + split; [auto | eauto].
    + intros err [= <-]. reflexivity.
    + intros imgs Himgs. discriminate.
Qed.

End TextToImage.

(* ===================================================================== *)
(** ** The handlers of the component                                      *)
(* ===================================================================== *)

Section Handlers.

Import App.

Variable File : Type.
Variable env : GeminiService.Environment File.

Local Abbreviation updatesOf := (handlerUpdates env).

(** Finds the awaited request in a handler's sequence of updates: walks
    the equation [us = pre ++ u :: post] along [us]. *)
Ltac locate_await H Haw :=
  lazymatch type of H with
  | nil = (?pre ++ _ :: _)%list => destruct pre; discriminate H
  | (_ :: _) = (?pre ++ _ :: _)%list =>
      let x := fresh "x" in
      let rest := fresh "rest" in
      destruct pre as [|x rest]; simpl in H;
      [ injection H as <- <-; simpl in Haw; try discriminate Haw
      | injection H as <- H; locate_await H Haw ]
  end.

Ltac field_done :=
  simpl; first [reflexivity | symmetry; assumption | assumption].

(** The three facts about a located request: loading before, idle after,
    and the state of the error and image cells after a rejection. *)
Ltac bracket_facts :=
  split; [field_done|]; split; [field_done|];
  let err := fresh "err" in
  let Herr := fresh "Herr" in
  intros err Herr; simpl in Herr;
  first [ discriminate Herr
        | injection Herr as <-; repeat split; field_done ].

(** C8 (as amended).  In each of the five handlers, wherever the
    sequence of updates awaits a request, the loading flag is [true] at
    that point and [false] at the end, whether the request resolved or
    rejected; when it rejected with [err], the error flag ends as
    [err.message], or as ["An unknown error occurred."] when [err] has no
    message or an empty one, and [generatedImages] and [activeImageUrl] end
    as they began. *)
Theorem handlers_bracket_requests_with_flags
  (h : Handler) (s : AppState File)
  (pre post : list (Update File)) (u : Update File) :
  updatesOf h s = (pre ++ u :: post)%list ->
  isAwait u = true ->
  isLoading (run s pre) = true
  /\ isLoading (run s (updatesOf h s)) = false
  /\ forall err, failureOf u = Some err ->
       error (run s (updatesOf h s)) = Some (errorText err)
       /\ generatedImages (run s (updatesOf h s)) = generatedImages s
       /\ activeImageUrl (run s (updatesOf h s)) = activeImageUrl s.
Proof.
  intros H Haw.
  destruct h; simpl in *;
    unfold handleGenerate, handleUpscale, handleApplyFilter,
      handleEditWithPrompt, handleChangeAspectRatio, editActiveImage, settle
      in *.
  - destruct (negb (truthy (Some (trim (prompt s))))
              && negb (isSome (uploadedImage s)));
      [locate_await H Haw|].
    destruct (negb (includes (promptHistory s) (prompt s))
              && truthy (Some (trim (prompt s))));
      (destruct (uploadedImage s) as [file|];
       [ destruct (GeminiService.generateImageFromImageAndText _ _ _)
       | destruct (GeminiService.generateImageFromText _ _ _) ];
       simpl in H; locate_await H Haw; bracket_facts).
  - destruct (activeImageUrl s) as [[|c url]|] eqn:Hactive;
      try (locate_await H Haw; fail).
    destruct (GeminiService.generateImageFromImageAndText _ _ _);
      simpl in H; locate_await H Haw; bracket_facts.
  - destruct (activeImageUrl s) as [[|c url]|] eqn:Hactive;
      try (locate_await H Haw; fail).
    destruct (GeminiService.generateImageFromImageAndText _ _ _);
      simpl in H; locate_await H Haw; bracket_facts.
  - destruct (activeImageUrl s) as [[|c url]|] eqn:Hactive;
      try (locate_await H Haw; fail).
    destruct (negb (truthy (Some (trim (editPrompt s)))));
      [locate_await H Haw|].
    destruct (GeminiService.generateImageFromImageAndText _ _ _);
      simpl in H; locate_await H Haw; bracket_facts.
  - destruct (activeImageUrl s) as [[|c url]|] eqn:Hactive;
      try (locate_await H Haw; fail).
    destruct (GeminiService.generateImageFromImageAndText _ _ _);
      simpl in H; locate_await H Haw; bracket_facts.
Qed.

Local Abbreviation stepOf := (step env).

Lemma includes_false (arr : list string) (x : string) :
  includes arr x = false -> ~ In x arr.
Proof.
  unfold includes. intros H Hin.
  assert (Hex : existsb (String.eqb x) arr = true).
  { apply existsb_exists. exists x. split; [exact Hin | apply String.eqb_refl]. }
  congruence.
Qed.

Lemma includes_true (arr : list string) (x : string) :
  includes arr x = true -> In x arr.
Proof.
  unfold includes. intros H.
  apply existsb_exists in H as (y & Hy & Heq).
  apply String.eqb_eq in Heq. now subst.
Qed.

Lemma In_slice0 {A : Type} (n : nat) (l : list A) (x : A) :
  In x (slice0 n l) -> In x l.
Proof.
  unfold slice0. revert n.
  induction l as [|y l IH]; intros [|n]; simpl; try tauto.
  intros [-> | Hin]; [now left | right; eapply IH; eassumption].
Qed.

Lemma NoDup_slice0 {A : Type} (n : nat) (l : list A) :
  NoDup l -> NoDup (slice0 n l).
Proof.
  intros H. revert n.
  induction H as [|x l Hx Hl IH]; intros [|n]; simpl; try constructor.
  - intros Hin. apply Hx. eapply In_slice0; eassumption.
  - apply IH.
Qed.

Lemma length_slice0 {A : Type} (n : nat) (l : list A) :
  length (slice0 n l) <= n.
Proof. apply firstn_le_length. Qed.

(** What one run of [handleGenerate] does to the history. *)
Lemma history_after_generate (s : AppState File) :
  promptHistory (stepOf s (Invoke HandleGenerate))
  = if negb (includes (promptHistory s) (prompt s))
       && truthy (Some (trim (prompt s)))
    then slice0 10 (prompt s :: promptHistory s)
    else promptHistory s.
Proof.
  unfold step, eventUpdates, handlerUpdates, handleGenerate, settle.
  destruct (truthy (Some (trim (prompt s)))) eqn:Hblank.
  - destruct (negb (includes (promptHistory s) (prompt s)));
      (destruct (uploadedImage s) as [file|];
       [ destruct (GeminiService.generateImageFromImageAndText _ _ _)
       | destruct (GeminiService.generateImageFromText _ _ _) ];
       reflexivity).
  - rewrite andb_false_r.
    destruct (uploadedImage s) as [file|]; [|reflexivity].
    destruct (GeminiService.generateImageFromImageAndText _ _ _);
      reflexivity.
Qed.

(** Every other event leaves the history as it is. *)
Lemma history_after_other (s : AppState File) (ev : Event File) :
  ev <> Invoke HandleGenerate ->
  promptHistory (stepOf s ev) = promptHistory s.
Proof.
  intros Hev. unfold step.
  destruct ev as [h| | | |file objectUrl| | |]; simpl; try reflexivity.
  - destruct h; [congruence | | | |]; simpl;
      unfold handleUpscale, handleApplyFilter, handleEditWithPrompt,
        handleChangeAspectRatio, editActiveImage, settle;
      destruct (activeImageUrl s) as [[|c url]|]; try reflexivity;
      try (destruct (negb (truthy (Some (trim (editPrompt s)))));
           [reflexivity|]);
      destruct (GeminiService.generateImageFromImageAndText _ _ _);
      reflexivity.
  - destruct file; reflexivity.
Qed.

Lemma generate_keeps_history_invariant (s : AppState File) :
  historyInvariant (promptHistory s) ->
  historyInvariant
    (if negb (includes (promptHistory s) (prompt s))
        && truthy (Some (trim (prompt s)))
     then slice0 10 (prompt s :: promptHistory s)
     else promptHistory s).
Proof.
  intros [Hlen Hnodup].
  destruct (includes (promptHistory s) (prompt s)) eqn:Hinc;
    cbn [negb andb]; [split; assumption|].
  destruct (truthy (Some (trim (prompt s)))); [|split; assumption].
  split; [apply length_slice0|].
  apply NoDup_slice0. constructor; [|assumption].
  now apply includes_false.
Qed.

(** Closes [Forall keepsHistory us] for an explicit list [us]: every
    update is a plain one, or writes a history known to be invariant. *)
Ltac all_keep :=
  simpl;
  repeat (apply Forall_cons; [first [exact I | assumption]|]);
  apply Forall_nil.

(** The updates of an event, computed in a state whose history satisfies
    the invariant, all keep the invariant. *)
Lemma eventUpdates_keep_history (s : AppState File) (ev : Event File) :
  historyInvariant (promptHistory s) ->
  Forall keepsHistory (eventUpdates env ev s).
Proof.
  intros Hinv.
  pose proof (generate_keeps_history_invariant s Hinv) as Hgen.
  destruct ev as [h| | | |file objectUrl| | |]; try (all_keep; fail).
  - destruct h; unfold eventUpdates, handlerUpdates, handleGenerate,
      handleUpscale, handleApplyFilter, handleEditWithPrompt,
      handleChangeAspectRatio, editActiveImage, settle.
    + destruct (negb (truthy (Some (trim (prompt s))))
                && negb (isSome (uploadedImage s))); [all_keep|].
      destruct (negb (includes (promptHistory s) (prompt s))
                && truthy (Some (trim (prompt s))));
        (destruct (uploadedImage s) as [file|];
         [ destruct (GeminiService.generateImageFromImageAndText _ _ _)
         | destruct (GeminiService.generateImageFromText _ _ _) ];
         all_keep).
    + destruct (activeImageUrl s) as [[|c url]|]; try (all_keep; fail).
      destruct (GeminiService.generateImageFromImageAndText _ _ _); all_keep.
    + destruct (activeImageUrl s) as [[|c url]|]; try (all_keep; fail).
      destruct (GeminiService.generateImageFromImageAndText _ _ _); all_keep.
    + destruct (activeImageUrl s) as [[|c url]|]; try (all_keep; fail).
      destruct (negb (truthy (Some (trim (editPrompt s))))); [all_keep|].
      destruct (GeminiService.generateImageFromImageAndText _ _ _); all_keep.
    + destruct (activeImageUrl s) as [[|c url]|]; try (all_keep; fail).
      destruct (GeminiService.generateImageFromImageAndText _ _ _); all_keep.
  - destruct file; all_keep.
Qed.

Lemma apply_keeps_history (s : AppState File) (u : Update File) :
  keepsHistory u ->
  historyInvariant (promptHistory s) ->
  historyInvariant (promptHistory (apply s u)).
Proof. destruct u; simpl; auto. Qed.

(** The invariant of the running component: the committed history and
    every history still to be written satisfy [historyInvariant]. *)
Lemma reachable_history_invariant (c : Config File) :
  Reachable env c ->
  historyInvariant (promptHistory (current c))
  /\ Forall (Forall keepsHistory) (inFlight c).
Proof.
  induction 1 as [|c ev Hreach [IHs IHf]
                  |c before after u us Hreach [IHs IHf] Hflight]; simpl.
  - split; [split; [simpl; lia | constructor] | constructor].
  - split; [assumption|].
    constructor; [now apply eventUpdates_keep_history | assumption].
  - rewrite Hflight in IHf.
    apply Forall_app in IHf as [Hbefore Hrest].
    apply Forall_cons_iff in Hrest as [Hus Hafter].
    apply Forall_cons_iff in Hus as [Hu Hus].
    split; [now apply apply_keeps_history|].
    apply Forall_app. split; [assumption|].
    constructor; assumption.
Qed.

(** C10.  In every configuration the component can reach, the prompt
    history has at most 10 entries and no entry twice.  From such a state,
    [handleGenerate] replaces the history by the first 10 entries of the
    current prompt followed by the old history when the prompt is not
    blank after trimming and not in the history, leaves the history as it
    is otherwise, and so ends with a history without duplicates. *)
Theorem prompt_history_is_bounded_and_duplicate_free (c : Config File) :
  Reachable env c ->
  let s := current c in
  length (promptHistory s) <= 10
  /\ NoDup (promptHistory s)
  /\ (~ In (prompt s) (promptHistory s) -> trim (prompt s) <> EmptyString ->
      promptHistory (stepOf s (Invoke HandleGenerate))
      = firstn 10 (prompt s :: promptHistory s))
  /\ (In (prompt s) (promptHistory s) \/ trim (prompt s) = EmptyString ->
      promptHistory (stepOf s (Invoke HandleGenerate)) = promptHistory s)
  /\ NoDup (promptHistory (stepOf s (Invoke HandleGenerate))).
Proof.
  intros Hreach s.
  destruct (reachable_history_invariant c Hreach) as [Hinv _].
  fold s in Hinv.
  split; [apply Hinv|]. split; [apply Hinv|].
  rewrite history_after_generate.
  split; [|split].
  - intros Hnew Hblank.
    destruct (includes (promptHistory s) (prompt s)) eqn:Hinc.
    + apply includes_true in Hinc. contradiction.
    + cbn [negb andb].
      destruct (trim (prompt s)); [congruence | reflexivity].
  - intros [Hin | Hblank].
    + destruct (includes (promptHistory s) (prompt s)) eqn:Hinc;
        [reflexivity|].
      apply includes_false in Hinc. contradiction.
    + rewrite Hblank. cbn [truthy]. rewrite andb_false_r. reflexivity.
  - apply (generate_keeps_history_invariant s Hinv).
Qed.

(** A session in which every handler runs to completion reaches only
    reachable configurations. *)
Lemma run_is_reachable (c : Config File) (us : list (Update File))
  (flight : list (list (Update File))) :
  Reachable env c -> inFlight c = us :: flight ->
  Reachable env {| current := run (current c) us; inFlight := [] :: flight |}.
Proof.
  revert c. induction us as [|u us IH]; intros c Hreach Hflight.
  - destruct c as [s fl]. simpl in *. subst fl. exact Hreach.
  - simpl. apply (IH {| current := apply (current c) u;
                        inFlight := us :: flight |}); [|reflexivity].
    exact (reach_update File env c [] flight u us Hreach Hflight).
Qed.

Lemma session_is_reachable (evs : list (Event File)) :
  exists flight,
    Reachable env {| current := session env evs; inFlight := flight |}.
Proof.
  induction evs as [|ev evs [flight IH]] using rev_ind.
  - exists []. constructor.
  - exists ([] :: flight). unfold session. rewrite fold_left_app. simpl.
    fold (session env evs). unfold step.
    apply (run_is_reachable
             {| current := session env evs;
                inFlight := eventUpdates env ev (session env evs) :: flight |});
      [|reflexivity].
    exact (reach_event File env _ ev IH).
Qed.

End Handlers.

(* ===================================================================== *)
(** ** The properties on the sample inputs                                *)
(* ===================================================================== *)

Section Instances.

Import GeminiService.
Import App.

Lemma sample_answers (response : Sdk.GenerateContentResponse)
  (images : Completion Sdk.GenerateImagesResponse)
  (originalImage : ImageSource unit) (userPrompt : string) :
  answers (sampleEnv (Return response) images)
    (match originalImage with
     | FromFile _ => originalImage
     | FromDataUrl _ => FromDataUrl sampleUrl
     end) userPrompt response.
Proof.
  split; [reflexivity|].
  exists (partOf "image/png" "iVBORw0KGgo=").
  destruct originalImage; split; reflexivity.
Defined.

Lemma no_inline_data_sample (finishReason text : option string) :
  noInlineData
    {| Sdk.promptFeedback := None;
       Sdk.candidates := Some [candidateOf [plainPart] finishReason];
       Sdk.text := text |}.
Proof.
  intros ps part Hps Hin. injection Hps as <-.
  destruct Hin as [<- | []]. reflexivity.
Defined.

Lemma every_response_is_classified_witness :
  exists! c : ResultClass,
    inClass (generateImageFromImageAndText
               (sampleEnv (Return textResponse) (Throw ErrorEvent))
               (FromFile tt) "add a hat") c.
Proof.
  exact (every_response_is_classified unit
           (sampleEnv (Return textResponse) (Throw ErrorEvent))
           (FromFile tt) "add a hat" textResponse
           (sample_answers textResponse (Throw ErrorEvent)
              (FromFile tt) "add a hat")).
Defined.

Lemma blocked_prompt_takes_priority_witness :
  imagePartFromResponse blockedWithImage = Some imagePart
  /\ generateImageFromImageAndText
       (sampleEnv (Return blockedWithImage) (Throw ErrorEvent))
       (FromDataUrl sampleUrl) "add a hat"
     = Throw (Error "Request was blocked. Reason: SAFETY. ").
Proof.
  split; [reflexivity|].
  exact (blocked_prompt_takes_priority unit
           (sampleEnv (Return blockedWithImage) (Throw ErrorEvent))
           (FromDataUrl sampleUrl) "add a hat" blockedWithImage "SAFETY"
           (sample_answers blockedWithImage (Throw ErrorEvent)
              (FromDataUrl sampleUrl) "add a hat")
           eq_refl eq_refl).
Defined.

Lemma first_image_part_is_returned_witness :
  exists before part after blob,
    [plainPart; imagePart] = (before ++ part :: after)%list
    /\ (forall p, In p before -> Sdk.inlineData p = None)
    /\ Sdk.inlineData part = Some blob
    /\ generateImageFromImageAndText
         (sampleEnv (Return imageResponse) (Throw ErrorEvent))
         (FromDataUrl sampleUrl) "add a hat"
       = Return ("data:" ++ Sdk.mimeType blob ++ ";base64," ++ Sdk.data blob).
Proof.
  apply (first_image_part_is_returned unit
           (sampleEnv (Return imageResponse) (Throw ErrorEvent))
           (FromDataUrl sampleUrl) "add a hat"
           imageResponse [plainPart; imagePart]
           (sample_answers imageResponse (Throw ErrorEvent)
              (FromDataUrl sampleUrl) "add a hat")
           eq_refl eq_refl).
  exists imagePart. split; [right; left; reflexivity | discriminate].
Defined.

(** The sample image response yields the URL of its second part. *)
Example image_response_yields_png :
  generateImageFromImageAndText
    (sampleEnv (Return imageResponse) (Throw ErrorEvent))
    (FromDataUrl sampleUrl) "add a hat"
  = Return "data:image/png;base64,iVBORw0KGgo=".
Proof. reflexivity. Qed.

Lemma unexpected_finish_is_reported_witness :
  generateImageFromImageAndText
    (sampleEnv (Return stoppedResponse) (Throw ErrorEvent))
    (FromDataUrl sampleUrl) "add a hat"
  = Throw (Error "Image generation stopped unexpectedly. Reason: SAFETY. This often relates to safety settings.").
Proof.
  apply (unexpected_finish_is_reported unit
           (sampleEnv (Return stoppedResponse) (Throw ErrorEvent))
           (FromDataUrl sampleUrl) "add a hat" stoppedResponse "SAFETY"
           (sample_answers stoppedResponse (Throw ErrorEvent)
              (FromDataUrl sampleUrl) "add a hat")
           eq_refl (no_inline_data_sample _ _) eq_refl eq_refl).
  discriminate.
Defined.

Lemma text_or_generic_fallback_witness :
  trim "  I cannot edit this image. " = "I cannot edit this image."
  /\ generateImageFromImageAndText
       (sampleEnv (Return textResponse) (Throw ErrorEvent))
       (FromDataUrl sampleUrl) "add a hat"
     = Throw (Error ("The AI model did not return an image. The model responded with text: "
                     ++ dquote ++ "I cannot edit this image." ++ dquote)).
Proof.
  split; [reflexivity|].
  refine (proj1 (text_or_generic_fallback unit
                   (sampleEnv (Return textResponse) (Throw ErrorEvent))
                   (FromDataUrl sampleUrl) "add a hat" textResponse
                   (sample_answers textResponse (Throw ErrorEvent)
                      (FromDataUrl sampleUrl) "add a hat")
                   eq_refl (no_inline_data_sample _ _)
                   (or_intror eq_refl))
                "  I cannot edit this image. " eq_refl _).
  discriminate.
Defined.

Lemma text_request_throws_iff_no_images_witness :
  generateImageFromText (sampleEnv (Throw ErrorEvent) (Return twoImages))
    "a red fox" Ratio_16_9
  = Return ["data:image/png;base64,AAAA"; "data:image/png;base64,BBBB"].
Proof.
  refine (proj2 (proj2 (text_request_throws_iff_no_images unit
                          (sampleEnv (Throw ErrorEvent) (Return twoImages))
                          "a red fox" Ratio_16_9 twoImages
                          (conj eq_refl eq_refl)))
                [ {| Sdk.image := {| Sdk.imageBytes := "AAAA" |} |};
                  {| Sdk.image := {| Sdk.imageBytes := "BBBB" |} |} ]
                eq_refl _).
  discriminate.
Defined.

Lemma encoder_returns_mime_and_payload_witness :
  dataUrlToPart "data:image/png;base64,iVBORw0KGgo="
  = Return (partOf "image/png" "iVBORw0KGgo=")
  /\ fileToPart (sampleEnv (Throw ErrorEvent) (Throw ErrorEvent)) tt
     = Return (partOf "image/png" "iVBORw0KGgo=").
Proof.
  destruct (encoder_returns_mime_and_payload unit
              (sampleEnv (Throw ErrorEvent) (Throw ErrorEvent)) tt
              "data" "image/png" "base64" "iVBORw0KGgo="
              eq_refl eq_refl eq_refl eq_refl eq_refl) as [Hurl Hfile].
  split; [exact Hurl | exact (Hfile eq_refl)].
Defined.

(** C7, as first stated, fails: a payload that holds a comma is cut at
    that comma. *)
Lemma payload_is_cut_at_second_comma :
  split "," "data:text/plain;charset=utf-8,a,b"
  = ["data:text/plain;charset=utf-8"; "a"; "b"]
  /\ dataUrlToPart "data:text/plain;charset=utf-8,a,b"
     = Return (partOf "text/plain" "a")
  /\ dataUrlToPart "data:text/plain;charset=utf-8,a,b"
     <> Return (partOf "text/plain" "a,b").
Proof.
  split; [reflexivity|]. split; [reflexivity|]. discriminate.
Qed.

Lemma classifier_output_round_trips_witness :
  dataUrlToPart (dataUrlOf "image/png" "iVBORw0KGgo=")
  = Return (partOf "image/png" "iVBORw0KGgo=")
  /\ exists dataUrl,
       generateImageFromImageAndText
         (sampleEnv (Return imageResponse) (Throw ErrorEvent))
         (FromFile tt) "add a hat"
       = Return dataUrl
       /\ dataUrlToPart dataUrl = Return (partOf "image/png" "iVBORw0KGgo=").
Proof.
  destruct (classifier_output_round_trips unit
              (sampleEnv (Return imageResponse) (Throw ErrorEvent))
              "image/png" "iVBORw0KGgo=" eq_refl eq_refl) as [Hurl Hedit].
  split; [exact Hurl|].
  exact (Hedit (FromFile tt) "add a hat" imageResponse
           (sample_answers imageResponse (Throw ErrorEvent)
              (FromFile tt) "add a hat")
           eq_refl eq_refl).
Defined.

(** C9, as first stated, fails: the empty MIME type holds neither [;] nor
    [,], and the encoder rejects the URL built from it. *)
Lemma empty_mime_type_does_not_round_trip :
  occurs ";" "" = false /\ occurs "," "" = false /\ occurs "," "AAAA" = false
  /\ dataUrlToPart (dataUrlOf "" "AAAA")
     = Throw (Error "Could not parse MIME type from data URL")
  /\ dataUrlToPart (dataUrlOf "" "AAAA") <> Return (partOf "" "AAAA").
Proof.
  repeat (split; [reflexivity|]). discriminate.
Qed.

(** A line terminator in the MIME type stops the pattern as well. *)
Example line_break_in_mime_type_is_rejected :
  dataUrlToPart (dataUrlOf ("image" ++ String (ascii_of_nat 10) "png") "AAAA")
  = Throw (Error "Could not parse MIME type from data URL").
Proof. reflexivity. Qed.

Lemma handlers_bracket_requests_with_flags_witness :
  let env := sampleEnv (Throw (Error "quota exceeded")) (Throw ErrorEvent) in
  let updates := handlerUpdates env HandleUpscale showingSample in
  isLoading (run showingSample
               [SetIsLoading true; SetError None;
                SetLoadingMessage "Upscaling image..."]) = true
  /\ isLoading (run showingSample updates) = false
  /\ error (run showingSample updates) = Some "quota exceeded"
  /\ generatedImages (run showingSample updates) = []
  /\ activeImageUrl (run showingSample updates) = Some sampleUrl.
Proof.
  intros env updates.
  destruct (handlers_bracket_requests_with_flags unit env
              HandleUpscale showingSample
              [SetIsLoading true; SetError None;
               SetLoadingMessage "Upscaling image..."]
              [SetError (Some "quota exceeded"); SetIsLoading false]
              (AwaitImage (Throw (Error "quota exceeded")))
              eq_refl eq_refl) as (Hbefore & Hafter & Hfail).
  destruct (Hfail (Error "quota exceeded") eq_refl) as (Herr & Himgs & Hact).
  repeat split; assumption.
Defined.

(** C8, as first stated, fails: a rejection whose message is empty leaves
    the fallback text, not that message, in the error flag. *)
Lemma empty_message_shows_fallback_text :
  let env := sampleEnv (Throw (Error "")) (Throw ErrorEvent) in
  let updates := handleUpscale env showingSample in
  updates
  = [SetIsLoading true; SetError None; SetLoadingMessage "Upscaling image...";
     AwaitImage (Throw (Error ""));
     SetError (Some "An unknown error occurred."); SetIsLoading false]
  /\ message (Error "") = Some ""
  /\ error (run showingSample updates) = Some "An unknown error occurred."
  /\ error (run showingSample updates) <> message (Error "").
Proof.
  repeat (split; [reflexivity|]). discriminate.
Qed.

(** A file that cannot be read rejects with an event that has no message
    at all; [handleGenerate] then shows the same fallback text. *)
Example unreadable_file_shows_fallback_text :
  let env :=
    {| readAsDataURL := fun _ : unit => Throw ErrorEvent;
       newGoogleGenAI := Return tt;
       generateContent := fun _ => Return imageResponse;
       generateImages := fun _ => Return twoImages |} in
  let s := apply (initialState unit) (SetUploadedImage (Some tt)) in
  error (run s (handleGenerate env s)) = Some "An unknown error occurred."
  /\ isLoading (run s (handleGenerate env s)) = false.
Proof. split; reflexivity. Qed.

Lemma prompt_history_is_bounded_and_duplicate_free_witness :
  promptHistory typedPrompt = ["a red fox"]
  /\ length (promptHistory typedPrompt) <= 10
  /\ promptHistory (step galleryEnv typedPrompt (Invoke HandleGenerate))
     = ["a blue whale"; "a red fox"].
Proof.
  destruct (session_is_reachable unit galleryEnv
              [PromptChanged "a red fox"; Invoke HandleGenerate;
               PromptChanged "a blue whale"]) as [flight Hreach].
  destruct (prompt_history_is_bounded_and_duplicate_free unit galleryEnv
              _ Hreach) as (Hlen & Hnodup & Hnew & Hold & Hafter).
  split; [reflexivity|]. split; [exact Hlen|].
  apply Hnew.
  - simpl. intros [H | []]. discriminate H.
  - discriminate.
Defined.

End Instances.

(* ===================================================================== *)
(** ** More on the payload encoder                                        *)
(* ===================================================================== *)

Section EncoderOutcomes.

Import GeminiService.

Variable File : Type.
Variable env : Environment File.

(** Every piece of a split is free of the separator, and the pieces,
    joined by the separator, give the string back. *)
Lemma splitPieces_inv (sep : ascii) (s h : string) (tl : list string) :
  splitPieces sep s = (h, tl) ->
  occurs sep h = false
  /\ match tl with
     | [] => s = h
     | p :: tl' => exists r, s = h ++ String sep r /\ splitPieces sep r = (p, tl')
     end.
Proof.
  revert h tl. induction s as [|c s IH]; simpl; intros h tl H.
  - injection H as <- <-. split; reflexivity.
  - destruct (splitPieces sep s) as [piece pieces] eqn:Hs.
    destruct (IH piece pieces eq_refl) as [Hfree Hrest].
    destruct (Ascii.eqb c sep) eqn:Hc; injection H as <- <-.
    + split; [reflexivity|].
      apply Ascii.eqb_eq in Hc as ->. exists s. split; [reflexivity|assumption].
    + split; [simpl; now rewrite Hc, Hfree|].
      destruct pieces as [|p tl'].
      * now rewrite Hrest.
      * destruct Hrest as (r & -> & Hr). exists r. split; [reflexivity|assumption].
Qed.

Lemma split_without_separator (sep : ascii) (s : string) :
  occurs sep s = false -> split sep s = [s].
Proof. intros H. unfold split. now rewrite (splitPieces_free _ _ H). Qed.

Lemma split_with_separator (sep : ascii) (s : string) :
  occurs sep s = true ->
  exists h p tl, split sep s = h :: p :: tl.
Proof.
  unfold split. destruct (splitPieces sep s) as [h tl] eqn:Hs. intros Hocc.
  destruct (splitPieces_inv _ _ _ _ Hs) as [Hfree Hrest].
  destruct tl as [|p tl']; [subst; congruence|].
  now exists h, p, tl'.
Qed.

Lemma lazyUntilSemicolon_needs_semicolon (s : string) :
  occurs ";" s = false -> lazyUntilSemicolon s = None.
Proof.
  induction s as [|c s IH]; simpl; [reflexivity|]. intros H.
  apply orb_false_iff in H as [Hc Hs]. rewrite Hc, (IH Hs).
  now destruct (isLineTerminator c).
Qed.

Lemma match_needs_colon_and_semicolon (s : string) :
  occurs ":" s = false \/ occurs ";" s = false ->
  matchColonGroupSemicolon s = None.
Proof.
  induction s as [|c s IH]; simpl; [reflexivity|]. intros [H | H];
    apply orb_false_iff in H as [Hc Hs].
  - rewrite Hc. apply IH. now left.
  - rewrite (lazyUntilSemicolon_needs_semicolon s Hs), (IH (or_intror Hs)).
    now destruct (Ascii.eqb c ":").
Qed.

(** What the pattern captures stands in the string between a [:] and the
    first [;] after it, with no line terminator in between. *)
Lemma match_sound (s group : string) :
  matchColonGroupSemicolon s = Some group ->
  exists pre post,
    s = pre ++ String ":" (group ++ String ";" post)
    /\ occurs ";" group = false /\ hasLineBreak group = false.
Proof.
  induction s as [|c s IH]; simpl; [discriminate|]. intros H.
  assert (Hlater : matchColonGroupSemicolon s = Some group ->
                   exists pre post,
                     String c s = pre ++ String ":" (group ++ String ";" post)
                     /\ occurs ";" group = false /\ hasLineBreak group = false).
  { intros Hm. destruct (IH Hm) as (pre & post & -> & Hs & Hb).
    exists (String c pre), post. repeat split; assumption. }
  destruct (Ascii.eqb c ":") eqn:Hc; [|now apply Hlater].
  destruct (lazyUntilSemicolon s) as [g|] eqn:Hlazy; [|now apply Hlater].
  injection H as ->. apply Ascii.eqb_eq in Hc as ->.
  apply lazyUntilSemicolon_spec in Hlazy as (rest & -> & Hs & Hb).
  exists EmptyString, rest. repeat split; assumption.
Qed.

Lemma splitPieces_payload (sep : ascii) (r p : string) (tl : list string) :
  splitPieces sep r = (p, tl) ->
  exists rest,
    r = p ++ rest /\ (rest = EmptyString \/ exists r', rest = String sep r').
Proof.
  intros H. destruct (splitPieces_inv _ _ _ _ H) as [_ Hrest].
  destruct tl as [|p' tl'].
  - exists EmptyString. split; [|now left].
    subst r. clear. induction p; simpl; congruence.
  - destruct Hrest as (r' & -> & _). exists (String sep r').
    split; [reflexivity | right; now exists r'].
Qed.

(** What [dataUrlToPart] returns, it has read off its argument. *)
Lemma dataUrlToPart_reads_off (dataUrl mimeType data : string) :
  dataUrlToPart dataUrl = Return (partOf mimeType data) ->
  exists pre post rest,
    dataUrl = pre ++ ":" ++ mimeType ++ ";" ++ post ++ "," ++ data ++ rest
    /\ (rest = EmptyString \/ exists r, rest = "," ++ r)
    /\ capturable mimeType = true
    /\ occurs "," pre = false /\ occurs "," post = false
    /\ occurs "," data = false.
Proof.
  unfold dataUrlToPart, split.
  destruct (splitPieces "," dataUrl) as [header tl] eqn:Hsplit.
  destruct (splitPieces_inv _ _ _ _ Hsplit) as [Hheader Hrest].
  destruct tl as [|payload tl']; [discriminate|].
  destruct Hrest as (r & -> & Hr).
  destruct (splitPieces_inv _ _ _ _ Hr) as [Hpayload _].
  destruct (splitPieces_payload _ _ _ _ Hr) as (rest & -> & Hshape).
  destruct (matchColonGroupSemicolon header) as [g|] eqn:Hmatch;
    [|discriminate].
  destruct (match_sound _ _ Hmatch) as (pre & post & -> & Hsemi & Hbreak).
  change (String ":" (g ++ String ";" post)) with (":" ++ g ++ ";" ++ post)
    in Hheader.
  rewrite !occurs_app in Hheader.
  apply orb_false_iff in Hheader as [Hpre Hheader].
  apply orb_false_iff in Hheader as [_ Hheader].
  apply orb_false_iff in Hheader as [Hcomma Hheader].
  apply orb_false_iff in Hheader as [_ Hpost].
  intros Hret.
  assert (Hg : g = mimeType /\ payload = data /\ g <> EmptyString).
  { destruct g; simpl in Hret; [discriminate Hret|].
    injection Hret as <- <-.
    split; [reflexivity|]. split; [reflexivity | congruence]. }
  destruct Hg as (-> & -> & Hne).
  exists pre, post, rest. repeat split; try assumption.
  - rewrite append_associative. simpl. rewrite append_associative.
    reflexivity.
  - unfold capturable.
    destruct mimeType; [congruence|].
    simpl truthy. now rewrite Hsemi, Hbreak, Hcomma.
Qed.

Lemma part_is_partOf (part : ImagePart) :
  part = partOf (Sdk.mimeType (inlineData part)) (Sdk.data (inlineData part)).
Proof. now destruct part as [[m d]]. Qed.

Lemma invalid_iff_no_comma (dataUrl : string) :
  dataUrlToPart dataUrl = Throw (Error "Invalid data URL")
  <-> occurs "," dataUrl = false.
Proof.
  unfold dataUrlToPart. split.
  - destruct (occurs "," dataUrl) eqn:Hocc; [|reflexivity].
    destruct (split_with_separator _ _ Hocc) as (h & p & tl & ->).
    destruct (matchColonGroupSemicolon h) as [[|c m]|]; discriminate.
  - intros Hocc. now rewrite (split_without_separator _ _ Hocc).
Qed.

(** X1.  [dataUrlToPart] throws ["Invalid data URL"] exactly when its
    argument holds no comma, and so does [fileToPart] on a file that reads
    as that text. *)
Theorem invalid_data_url_iff_no_comma (dataUrl : string) (file : File) :
  (dataUrlToPart dataUrl = Throw (Error "Invalid data URL")
   <-> occurs "," dataUrl = false)
  /\ (readAsDataURL env file = Return dataUrl ->
      (fileToPart env file = Throw (Error "Invalid data URL")
       <-> occurs "," dataUrl = false)).
Proof.
  split; [apply invalid_iff_no_comma|].
  intros Hread. rewrite fileToPart_reads, Hread. simpl.
  apply invalid_iff_no_comma.
Qed.

(** X2.  Whatever part the encoding step returns, it has read off a data
    URL (the argument itself, or what the file reads as) of the shape
    [pre:mimeType;post,data] or [pre:mimeType;post,data,more]: the MIME
    type is non-empty and free of [;], [,] and line terminators, and
    neither the header nor the data holds a comma. *)
Theorem encoded_part_is_read_off_the_url
  (originalImage : ImageSource File) (mimeType data : string) :
  originalImagePartOf env originalImage = Return (partOf mimeType data) ->
  exists dataUrl pre post rest,
    (originalImage = FromDataUrl dataUrl
     \/ exists file, originalImage = FromFile file
                     /\ readAsDataURL env file = Return dataUrl)
    /\ dataUrl = pre ++ ":" ++ mimeType ++ ";" ++ post ++ "," ++ data ++ rest
    /\ (rest = EmptyString \/ exists r, rest = "," ++ r)
    /\ capturable mimeType = true
    /\ occurs "," pre = false /\ occurs "," post = false
    /\ occurs "," data = false.
Proof.
  destruct originalImage as [file|dataUrl]; simpl; intros H.
  - rewrite fileToPart_reads in H.
    destruct (readAsDataURL env file) as [dataUrl|err] eqn:Hread;
      [|discriminate H].
    simpl in H.
    destruct (dataUrlToPart_reads_off _ _ _ H) as (pre & post & rest & Hrest).
    exists dataUrl, pre, post, rest. split; [right; eauto | exact Hrest].
  - destruct (dataUrlToPart_reads_off _ _ _ H) as (pre & post & rest & Hrest).
    exists dataUrl, pre, post, rest. split; [now left | exact Hrest].
Qed.

(** X3.  A URL whose text before the first comma lacks a [:] or lacks a
    [;] is rejected with ["Could not parse MIME type from data URL"]. *)
Theorem header_without_mime_segment_is_rejected (header rest : string) :
  occurs "," header = false ->
  occurs ":" header = false \/ occurs ";" header = false ->
  dataUrlToPart (header ++ "," ++ rest)
  = Throw (Error "Could not parse MIME type from data URL").
Proof.
  intros Hcomma Hseg. unfold dataUrlToPart, split.
  change (header ++ "," ++ rest) with (header ++ String "," rest).
  rewrite (splitPieces_at_first _ _ _ Hcomma).
  unfold split. destruct (splitPieces "," rest) as [p tl].
  now rewrite (match_needs_colon_and_semicolon _ Hseg).
Qed.

(** X4.  A part that the encoding step returns survives the trip through
    the URL form of the classifier: encoding
    ["data:" + mimeType + ";base64," + data] gives the same part again. *)
Theorem encoded_part_round_trips
  (originalImage : ImageSource File) (part : ImagePart) :
  originalImagePartOf env originalImage = Return part ->
  dataUrlToPart
    (dataUrlOf (Sdk.mimeType (inlineData part)) (Sdk.data (inlineData part)))
  = Return part.
Proof.
  intros H. rewrite (part_is_partOf part) in H.
  assert (Hurl : exists dataUrl,
             dataUrlToPart dataUrl
             = Return (partOf (Sdk.mimeType (inlineData part))
                              (Sdk.data (inlineData part)))).
  { destruct originalImage as [file|dataUrl]; simpl in H.
    - rewrite fileToPart_reads in H.
      destruct (readAsDataURL env file) as [dataUrl|err]; [|discriminate H].
      now exists dataUrl.
    - now exists dataUrl. }
  destruct Hurl as (dataUrl & Hurl).
  destruct (dataUrlToPart_reads_off _ _ _ Hurl)
    as (pre & post & rest & _ & _ & Hcap & _ & _ & Hdata).
  rewrite (part_is_partOf part) at 3.
  unfold dataUrlOf.
  change ("data:" ++ Sdk.mimeType (inlineData part) ++ ";base64,"
          ++ Sdk.data (inlineData part))
    with ("data" ++ ":" ++ Sdk.mimeType (inlineData part) ++ ";" ++ "base64"
          ++ "," ++ Sdk.data (inlineData part)).
  apply dataUrlToPart_flat; auto.
Qed.

End EncoderOutcomes.

(* ===================================================================== *)
(** ** More on the two request functions                                  *)
(* ===================================================================== *)

Section RequestOutcomes.

Import GeminiService.

Variable File : Type.
Variable env : Environment File.

Local Abbreviation edit := (generateImageFromImageAndText env).

Lemma dataUrlToPart_errors (dataUrl : string) (err : Thrown) :
  dataUrlToPart dataUrl = Throw err ->
  err = Error "Invalid data URL"
  \/ err = Error "Could not parse MIME type from data URL".
Proof.
  unfold dataUrlToPart.
  destruct (split "," dataUrl) as [|h [|p tl]]; try (intros [= <-]; now left).
  destruct (matchColonGroupSemicolon h) as [[|c m]|];
    try discriminate; intros [= <-]; now right.
Qed.

Lemma find_splits {A : Type} (f : A -> bool) (l : list A) (x : A) :
  find f l = Some x ->
  exists before after,
    l = (before ++ x :: after)%list
    /\ (forall y, In y before -> f y = false) /\ f x = true.
Proof.
  induction l as [|y l IH]; simpl; [discriminate|].
  destruct (f y) eqn:Hy.
  - intros [= <-]. exists [], l. repeat split; [intros z []|assumption].
  - intros H. destruct (IH H) as (before & after & -> & Hb & Hx).
    exists (y :: before), after. repeat split; [|assumption].
    intros z [<- | Hz]; [assumption | now apply Hb].
Qed.

(** The response behind a returned URL. *)
Lemma interpretResponse_returns (response : Sdk.GenerateContentResponse)
  (url : string) :
  interpretResponse response = Return url ->
  truthy (blockReasonOf response) = false
  /\ exists before part after blob,
       partsOfFirstCandidate response = Some (before ++ part :: after)%list
       /\ (forall p, In p before -> Sdk.inlineData p = None)
       /\ Sdk.inlineData part = Some blob
       /\ url = dataUrlOf (Sdk.mimeType blob) (Sdk.data blob).
Proof.
  unfold interpretResponse. fold (blockReasonOf response).
  destruct (truthy (blockReasonOf response)); [discriminate|].
  unfold imagePartFromResponse.
  destruct (partsOfFirstCandidate response) as [ps|]; simpl.
  - destruct (find (fun part => isSome (Sdk.inlineData part)) ps)
      as [part|] eqn:Hfind; simpl.
    + destruct (find_splits _ _ _ Hfind) as (before & after & -> & Hb & Hx).
      destruct (Sdk.inlineData part) as [blob|] eqn:Hblob; [|discriminate Hx].
      intros [= <-]. split; [reflexivity|].
      exists before, part, after, blob. repeat split; try assumption.
      intros p Hp. specialize (Hb p Hp).
      destruct (Sdk.inlineData p); [discriminate Hb | reflexivity].
    + destruct (truthy _ && negb _); discriminate.
  - destruct (truthy _ && negb _); discriminate.
Qed.

Lemma interpretResponse_throws (response : Sdk.GenerateContentResponse)
  (err : Thrown) :
  interpretResponse response = Throw err ->
  inClass (Throw err) PromptBlocked \/ inClass (Throw err) StoppedEarly
  \/ inClass (Throw err) TextFeedback \/ inClass (Throw err) NoImage.
Proof.
  intros H.
  destruct (interpretResponse_cases response)
    as [(reason & detail & Hr)
       | [(blob & Hr)
         | [(reason & Hr) | [(feedback & Hr) | Hr]]]];
    rewrite Hr in H; try discriminate H; injection H as <-.
  - left. exists reason, detail. reflexivity.
  - right; left. exists reason. reflexivity.
  - right; right; left. exists feedback. reflexivity.
  - right; right; right. reflexivity.
Qed.

(** X5.  Every failure of [generateImageFromImageAndText] has one of five
    sources: the construction of the client threw it; the file reader
    threw it; the encoder threw one of its two errors; the remote call
    threw it; or the service answered and the failure is one of the four
    messages of the classifier. *)
Theorem edit_failure_has_a_source
  (originalImage : ImageSource File) (userPrompt : string) (err : Thrown) :
  edit originalImage userPrompt = Throw err ->
  newGoogleGenAI env = Throw err
  \/ (exists file, originalImage = FromFile file
                   /\ readAsDataURL env file = Throw err)
  \/ (originalImagePartOf env originalImage = Throw err
      /\ (err = Error "Invalid data URL"
          \/ err = Error "Could not parse MIME type from data URL"))
  \/ (exists part,
        originalImagePartOf env originalImage = Return part
        /\ generateContent env (contentRequest part userPrompt) = Throw err)
  \/ (exists response,
        answers env originalImage userPrompt response
        /\ (inClass (Throw err) PromptBlocked
            \/ inClass (Throw err) StoppedEarly
            \/ inClass (Throw err) TextFeedback
            \/ inClass (Throw err) NoImage)).
Proof.
  unfold generateImageFromImageAndText.
  destruct (newGoogleGenAI env) as [[]|e0] eqn:Hclient; simpl;
    [|intros [= <-]; now left].
  destruct (originalImagePartOf env originalImage) as [part|e1] eqn:Hpart;
    simpl.
  - destruct (generateContent env (contentRequest part userPrompt))
      as [response|e2] eqn:Hcall; simpl.
    + intros H. do 4 right. exists response. split.
      * split; [assumption|]. now exists part.
      * now apply (interpretResponse_throws response).
    + intros [= <-]. do 3 right. left. now exists part.
  - intros [= <-]. right.
    destruct originalImage as [file|dataUrl]; simpl in Hpart.
    + rewrite fileToPart_reads in Hpart.
      destruct (readAsDataURL env file) as [dataUrl|e3] eqn:Hread;
        simpl in Hpart.
      * right; left. split; [reflexivity|].
        now apply (dataUrlToPart_errors dataUrl).
      * injection Hpart as <-. left. now exists file.
    + right; left. split; [reflexivity|].
      now apply (dataUrlToPart_errors dataUrl).
Qed.

(** X6.  [generateImageFromImageAndText] returns a URL only when the
    service answered with a response that sets no block reason and whose
    first candidate has a part with inline data; the URL is then
    ["data:" + mimeType + ";base64," + data] of the first such part. *)
Theorem edit_returns_only_an_image_part
  (originalImage : ImageSource File) (userPrompt url : string) :
  edit originalImage userPrompt = Return url ->
  exists response before part after blob,
    answers env originalImage userPrompt response
    /\ truthy (blockReasonOf response) = false
    /\ partsOfFirstCandidate response = Some (before ++ part :: after)%list
    /\ (forall p, In p before -> Sdk.inlineData p = None)
    /\ Sdk.inlineData part = Some blob
    /\ url = "data:" ++ Sdk.mimeType blob ++ ";base64," ++ Sdk.data blob.
Proof.
  unfold generateImageFromImageAndText.
  destruct (newGoogleGenAI env) as [[]|e0] eqn:Hclient; simpl;
    [|discriminate].
  destruct (originalImagePartOf env originalImage) as [part0|e1] eqn:Hpart;
    simpl; [|discriminate].
  destruct (generateContent env (contentRequest part0 userPrompt))
    as [response|e2] eqn:Hcall; simpl; [|discriminate].
  intros H.
  destruct (interpretResponse_returns _ _ H)
    as (Hblock & before & part & after & blob & Hps & Hb & Hblob & ->).
  exists response, before, part, after, blob.
  repeat split; try assumption. now exists part0.
Qed.

Lemma imagesOfResponse_returns (response : Sdk.GenerateImagesResponse)
  (urls : list string) :
  imagesOfResponse response = Return urls ->
  exists imgs, Sdk.generatedImages response = Some imgs
               /\ imgs <> [] /\ urls = map pngDataUrl imgs.
Proof.
  unfold imagesOfResponse.
  destruct (Sdk.generatedImages response) as [[|img imgs]|]; simpl;
    try discriminate.
  intros [= <-]. exists (img :: imgs). repeat split. discriminate.
Qed.

(** X7.  [generateImageFromText] never returns an empty list: it returns
    only when the service answered with at least one image, with as many
    URLs as images, each beginning with ["data:image/png;base64,"]. *)
Theorem text_request_never_returns_nothing
  (prompt : string) (aspectRatio : AspectRatio) (urls : list string) :
  generateImageFromText env prompt aspectRatio = Return urls ->
  urls <> []
  /\ Forall (fun url => exists bytes, url = "data:image/png;base64," ++ bytes)
            urls
  /\ exists response imgs,
       answersText env prompt aspectRatio response
       /\ Sdk.generatedImages response = Some imgs
       /\ length urls = length imgs.
Proof.
  unfold generateImageFromText.
  destruct (newGoogleGenAI env) as [[]|e0] eqn:Hclient; simpl;
    [|discriminate].
  destruct (generateImages env (imagesRequest prompt aspectRatio))
    as [response|e1] eqn:Hcall; simpl; [|discriminate].
  intros H.
  destruct (imagesOfResponse_returns _ _ H) as (imgs & Himgs & Hne & ->).
  split; [|split].
  - destruct imgs; [congruence | discriminate].
  - apply Forall_forall. intros url Hin.
    apply in_map_iff in Hin as (img & <- & _).
    now exists (Sdk.imageBytes (Sdk.image img)).
  - exists response, imgs. repeat split; try assumption.
    now rewrite length_map.
Qed.

(** X8.  An image that [generateImageFromText] returned can be edited:
    when its bytes hold no comma, its URL encodes to the part
    [{ mimeType: "image/png", data: bytes }], and an edit of that URL sends
    exactly this part with the prompt and interprets what comes back. *)
Theorem generated_image_can_be_edited
  (prompt : string) (aspectRatio : AspectRatio)
  (response : Sdk.GenerateImagesResponse)
  (imgs : list Sdk.GeneratedImage) (img : Sdk.GeneratedImage) :
  answersText env prompt aspectRatio response ->
  Sdk.generatedImages response = Some imgs ->
  In img imgs ->
  occurs "," (Sdk.imageBytes (Sdk.image img)) = false ->
  let bytes := Sdk.imageBytes (Sdk.image img) in
  let url := "data:image/png;base64," ++ bytes in
  (exists urls, generateImageFromText env prompt aspectRatio = Return urls
                /\ In url urls)
  /\ dataUrlToPart url = Return (partOf "image/png" bytes)
  /\ forall userPrompt,
       edit (FromDataUrl url) userPrompt
       = bind (generateContent env
                 (contentRequest (partOf "image/png" bytes) userPrompt))
              interpretResponse.
Proof.
  intros [Hclient Hcall] Himgs Hin Hcomma bytes url.
  assert (Hurl : dataUrlToPart url = Return (partOf "image/png" bytes)).
  { apply (dataUrlToPart_flat "data" "image/png" "base64" bytes);
      auto. }
  split; [|split; [exact Hurl|]].
  - exists (map pngDataUrl imgs). split.
    + unfold generateImageFromText. rewrite Hclient. simpl.
      rewrite Hcall. simpl. unfold imagesOfResponse. rewrite Himgs.
      destruct imgs; [contradiction | reflexivity].
    + apply in_map_iff. now exists img.
  - intros userPrompt. unfold generateImageFromImageAndText.
    rewrite Hclient. simpl. rewrite Hurl. reflexivity.
Qed.

Lemma text_request_returns_some
  (prompt : string) (aspectRatio : AspectRatio) (urls : list string) :
  generateImageFromText env prompt aspectRatio = Return urls -> urls <> [].
Proof.
  unfold generateImageFromText.
  destruct (newGoogleGenAI env) as [[]|e0]; simpl; [|discriminate].
  destruct (generateImages env (imagesRequest prompt aspectRatio))
    as [response|e1]; simpl; [|discriminate].
  intros H.
  destruct (imagesOfResponse_returns _ _ H) as (imgs & _ & Hne & ->).
  destruct imgs; [congruence | discriminate].
Qed.

Lemma edit_returns_data_url
  (originalImage : ImageSource File) (userPrompt url : string) :
  edit originalImage userPrompt = Return url -> isDataUrl url.
Proof.
  unfold generateImageFromImageAndText.
  destruct (newGoogleGenAI env) as [[]|e0]; simpl; [|discriminate].
  destruct (originalImagePartOf env originalImage) as [part0|e1];
    simpl; [|discriminate].
  destruct (generateContent env (contentRequest part0 userPrompt))
    as [response|e2]; simpl; [|discriminate].
  intros H.
  destruct (interpretResponse_returns _ _ H)
    as (_ & _ & _ & _ & blob & _ & _ & _ & ->).
  now exists (Sdk.mimeType blob), (Sdk.data blob).
Qed.

Lemma text_request_returns_data_urls
  (prompt : string) (aspectRatio : AspectRatio) (urls : list string) :
  generateImageFromText env prompt aspectRatio = Return urls ->
  Forall isDataUrl urls.
Proof.
  unfold generateImageFromText.
  destruct (newGoogleGenAI env) as [[]|e0]; simpl; [|discriminate].
  destruct (generateImages env (imagesRequest prompt aspectRatio))
    as [response|e1]; simpl; [|discriminate].
  intros H.
  destruct (imagesOfResponse_returns _ _ H) as (imgs & _ & _ & ->).
  apply Forall_forall. intros url Hin.
  apply in_map_iff in Hin as (img & <- & _).
  now exists "image/png", (Sdk.imageBytes (Sdk.image img)).
Qed.

End RequestOutcomes.

(* ===================================================================== *)
(** ** More on the handlers                                               *)
(* ===================================================================== *)

Section HandlerOutcomes.

Import App.

Variable File : Type.
Variable env : GeminiService.Environment File.

Local Abbreviation updatesOf := (handlerUpdates env).

(** Unfolds the five handlers down to explicit sequences of updates. *)
Ltac unfold_handlers :=
  unfold handlerUpdates, handleGenerate, handleUpscale, handleApplyFilter,
    handleEditWithPrompt, handleChangeAspectRatio, editActiveImage, settle
    in *.

(** Splits the goal along every guard and every outcome of a handler on
    state [s], keeping the equation of each case. *)
Ltac handler_cases s :=
  repeat match goal with
         | |- context [match activeImageUrl s with _ => _ end] =>
             destruct (activeImageUrl s) as [[|? ?]|] eqn:?
         | |- context [match uploadedImage s with _ => _ end] =>
             destruct (uploadedImage s) eqn:?
         | |- context [GeminiService.generateImageFromImageAndText
                         ?e ?i ?p] =>
             destruct (GeminiService.generateImageFromImageAndText e i p)
               eqn:?
         | |- context [GeminiService.generateImageFromText ?e ?p ?a] =>
             destruct (GeminiService.generateImageFromText e p a) eqn:?
         | |- context [if ?b then _ else _] => destruct b eqn:?
         end.

Lemma errorText_not_empty (err : Thrown) : errorText err <> EmptyString.
Proof.
  unfold errorText, orElse.
  destruct (message err) as [[|c m]|]; simpl; discriminate.
Qed.

(** X9.  A handler awaits at most one request; when it awaits none, all
    it does is set the error flag to a non-empty message. *)
Theorem handler_awaits_at_most_one_request (h : Handler) (s : AppState File) :
  requestsIssued (updatesOf h s) <= 1
  /\ (requestsIssued (updatesOf h s) = 0 ->
      exists msg, msg <> EmptyString
                  /\ updatesOf h s = [SetError (Some msg)]).
Proof.
  unfold requestsIssued.
  destruct h; unfold_handlers; handler_cases s;
    (split; [simpl; lia|]);
    simpl; intros Hnone; try discriminate Hnone;
    eexists; (split; [|reflexivity]); discriminate.
Qed.

Lemma trimEnd_empty (s : string) :
  trimEnd s = EmptyString <-> allWhiteSpace s = true.
Proof.
  induction s as [|c s IH]; simpl; [tauto|].
  destruct (trimEnd s) as [|d t].
  - destruct (isWhiteSpace c); simpl; [tauto|].
    split; discriminate.
  - split; [discriminate|]. intros H.
    apply andb_true_iff in H as [_ H]. apply IH in H. discriminate H.
Qed.

Lemma allWhiteSpace_trimStart (s : string) :
  allWhiteSpace (trimStart s) = allWhiteSpace s.
Proof.
  induction s as [|c s IH]; simpl; [reflexivity|].
  destruct (isWhiteSpace c) eqn:Hc; simpl; [assumption|].
  now rewrite Hc.
Qed.

(** [!p.trim()] holds exactly of the strings made of white space. *)
Lemma truthy_trim (p : string) :
  truthy (Some (trim p)) = negb (allWhiteSpace p).
Proof.
  unfold trim. rewrite <- (allWhiteSpace_trimStart p).
  destruct (trimEnd (trimStart p)) as [|c t] eqn:Ht; simpl.
  - apply trimEnd_empty in Ht. now rewrite Ht.
  - destruct (allWhiteSpace (trimStart p)) eqn:Hw; [|reflexivity].
    apply trimEnd_empty in Hw. congruence.
Qed.

Lemma requests_of_generate (s : AppState File) :
  requestsIssued (handleGenerate env s)
  = if negb (truthy (Some (trim (prompt s))))
       && negb (isSome (uploadedImage s))
    then 0 else 1.
Proof.
  unfold requestsIssued. unfold_handlers.
  destruct (negb (truthy (Some (trim (prompt s))))
            && negb (isSome (uploadedImage s))); [reflexivity|].
  handler_cases s; reflexivity.
Qed.

Lemma requests_of_edit (h : Handler) (s : AppState File) :
  editsActiveImage h = true ->
  requestsIssued (updatesOf h s)
  = if truthy (activeImageUrl s)
       && match h with
          | HandleEditWithPrompt => truthy (Some (trim (editPrompt s)))
          | _ => true
          end
    then 1 else 0.
Proof.
  unfold requestsIssued. intros Hh.
  destruct h; try discriminate Hh; unfold_handlers;
    destruct (activeImageUrl s) as [[|c url]|]; try reflexivity;
    change (truthy (Some (String c url))) with true; cbn [andb];
    try (destruct (truthy (Some (trim (editPrompt s)))); cbn [negb];
         [|reflexivity]);
    handler_cases s; reflexivity.
Qed.

(** X10.  [handleGenerate] awaits no request exactly when the prompt is
    made of white space only and no image is uploaded; the upscale, filter
    and aspect-ratio handlers exactly when there is no active image; and
    [handleEditWithPrompt] exactly when there is no active image or the
    edit instruction is made of white space only. *)
Theorem guards_stop_blank_requests
  (s : AppState File) (filterPrompt : string) (newAspectRatio : AspectRatio) :
  (requestsIssued (handleGenerate env s) = 0
   <-> allWhiteSpace (prompt s) = true /\ uploadedImage s = None)
  /\ (requestsIssued (handleUpscale env s) = 0
      <-> truthy (activeImageUrl s) = false)
  /\ (requestsIssued (handleApplyFilter env filterPrompt s) = 0
      <-> truthy (activeImageUrl s) = false)
  /\ (requestsIssued (handleChangeAspectRatio env newAspectRatio s) = 0
      <-> truthy (activeImageUrl s) = false)
  /\ (requestsIssued (handleEditWithPrompt env s) = 0
      <-> truthy (activeImageUrl s) = false
          \/ allWhiteSpace (editPrompt s) = true).
Proof.
  pose proof (requests_of_edit HandleUpscale s eq_refl) as Hup.
  pose proof (requests_of_edit (HandleApplyFilter filterPrompt) s eq_refl)
    as Hfilter.
  pose proof (requests_of_edit (HandleChangeAspectRatio newAspectRatio) s
                eq_refl) as Hratio.
  pose proof (requests_of_edit HandleEditWithPrompt s eq_refl) as Hedit.
  cbv iota in Hup, Hfilter, Hratio, Hedit.
  rewrite andb_true_r in Hup, Hfilter, Hratio.
  change (requestsIssued (handleUpscale env s)
          = if truthy (activeImageUrl s) then 1 else 0) in Hup.
  change (requestsIssued (handleApplyFilter env filterPrompt s)
          = if truthy (activeImageUrl s) then 1 else 0) in Hfilter.
  change (requestsIssued (handleChangeAspectRatio env newAspectRatio s)
          = if truthy (activeImageUrl s) then 1 else 0) in Hratio.
  change (requestsIssued (handleEditWithPrompt env s)
          = if truthy (activeImageUrl s)
               && truthy (Some (trim (editPrompt s)))
            then 1 else 0) in Hedit.
  rewrite requests_of_generate, Hup, Hfilter, Hratio, Hedit, !truthy_trim.
  assert (Hactive : (if truthy (activeImageUrl s) then 1 else 0) = 0
                    <-> truthy (activeImageUrl s) = false).
  { destruct (truthy (activeImageUrl s)); split; intros H;
      try reflexivity; discriminate H. }
  split; [|split; [|split; [|split]]]; try exact Hactive.
  - destruct (allWhiteSpace (prompt s)), (uploadedImage s); simpl;
      split; intros H; try discriminate H; try (destruct H; discriminate);
      auto.
  - destruct (truthy (activeImageUrl s)), (allWhiteSpace (editPrompt s));
      simpl; split; intros H; try discriminate H; auto;
      destruct H; discriminate.
Qed.

(** X11.  The button of a handler is enabled exactly when nothing is
    loading and a click on it awaits a request: from an enabled button no
    handler ends in its guard. *)
Theorem enabled_button_awaits_a_request (h : Handler) (s : AppState File) :
  buttonDisabled h s = false
  <-> isLoading s = false /\ requestsIssued (updatesOf h s) = 1.
Proof.
  destruct h; simpl buttonDisabled;
    unfold generateDisabled, applyDisabled, editDisabled.
  - simpl updatesOf. rewrite requests_of_generate.
    destruct (isLoading s),
      (negb (truthy (Some (trim (prompt s))))
       && negb (isSome (uploadedImage s)));
      simpl; split; intros; try discriminate; try tauto;
      destruct H; discriminate.
  - rewrite (requests_of_edit HandleUpscale s eq_refl).
    destruct (isLoading s), (truthy (activeImageUrl s));
      simpl; split; intros; try discriminate; try tauto;
      destruct H; discriminate.
  - rewrite (requests_of_edit (HandleApplyFilter filterPrompt) s eq_refl).
    destruct (isLoading s), (truthy (activeImageUrl s));
      simpl; split; intros; try discriminate; try tauto;
      destruct H; discriminate.
  - rewrite (requests_of_edit HandleEditWithPrompt s eq_refl).
    destruct (isLoading s), (truthy (activeImageUrl s)),
      (truthy (Some (trim (editPrompt s))));
      simpl; split; intros; try discriminate; try tauto;
      destruct H; discriminate.
  - rewrite (requests_of_edit (HandleChangeAspectRatio newAspectRatio) s
               eq_refl).
    destruct (isLoading s), (truthy (activeImageUrl s));
      simpl; split; intros; try discriminate; try tauto;
      destruct H; discriminate.
Qed.

(** Walks the equation [us = pre ++ u :: post] along the explicit list
    [us]; leaves one goal for every position at which [u] can stand. *)
Ltac walk_updates H :=
  lazymatch type of H with
  | nil = (?pre ++ _ :: _)%list => destruct pre; discriminate H
  | (_ :: _) = (?pre ++ _ :: _)%list =>
      let x := fresh "x" in
      let rest := fresh "rest" in
      destruct pre as [|x rest]; simpl in H;
      [ injection H; clear H; intros; subst; simpl in *; try congruence
      | injection H as <- H; walk_updates H ]
  end.

Ltac fields_agree :=
  cbv zeta; repeat split; simpl; congruence.

(** X12.  When the request of one of the four edit handlers resolves with
    [newImage], the handler ends with [newImage] as the active image, no
    error, nothing loading, and the gallery, the prompt and the history as
    they were; [handleEditWithPrompt] also clears the edit instruction,
    the other three leave it. *)
Theorem edit_success_replaces_active_image
  (h : Handler) (s : AppState File)
  (pre post : list (Update File)) (newImage : string) :
  editsActiveImage h = true ->
  updatesOf h s = (pre ++ AwaitImage (Return newImage) :: post)%list ->
  let s' := run s (updatesOf h s) in
  activeImageUrl s' = Some newImage
  /\ error s' = None
  /\ isLoading s' = false
  /\ generatedImages s' = generatedImages s
  /\ prompt s' = prompt s
  /\ promptHistory s' = promptHistory s
  /\ editPrompt s' = match h with
                     | HandleEditWithPrompt => EmptyString
                     | _ => editPrompt s
                     end.
Proof.
  intros Hh H. revert H.
  destruct h; try discriminate Hh; unfold_handlers; handler_cases s;
    intros H; simpl in H; walk_updates H; fields_agree.
Qed.

(** X13.  When the request of a handler rejects, the handler leaves what
    the user entered in place: the prompt, the edit instruction, the
    aspect ratio, the uploaded image with its preview, and the state of
    the upload panel. *)
Theorem failed_request_keeps_the_inputs
  (h : Handler) (s : AppState File)
  (pre post : list (Update File)) (u : Update File) (err : Thrown) :
  updatesOf h s = (pre ++ u :: post)%list ->
  failureOf u = Some err ->
  let s' := run s (updatesOf h s) in
  prompt s' = prompt s
  /\ editPrompt s' = editPrompt s
  /\ aspectRatio s' = aspectRatio s
  /\ uploadedImage s' = uploadedImage s
  /\ uploadedImageUrl s' = uploadedImageUrl s
  /\ isUploadPanelOpen s' = isUploadPanelOpen s.
Proof.
  intros H Hfail. revert H.
  destruct h; unfold_handlers; handler_cases s;
    intros H; simpl in H; walk_updates H; fields_agree.
Qed.

Lemma last_of_appended {A : Type} (old new : list A) (d : A) (dflt : option A) :
  new <> [] ->
  (if (0 <? length (old ++ new))%nat
   then nth_error (old ++ new) (length (old ++ new) - 1)
   else dflt)
  = Some (last new d).
Proof.
  intros Hne. destruct (exists_last Hne) as (l & x & ->).
  rewrite last_last, app_assoc, length_app. simpl length.
  replace (length (old ++ l) + 1 - 1) with (length (old ++ l)) by lia.
  rewrite nth_error_app2, Nat.sub_diag by lia.
  destruct (0 <? length (old ++ l) + 1)%nat eqn:Hlt; [reflexivity|].
  apply Nat.ltb_ge in Hlt. lia.
Qed.

(** X14.  When the request of [handleGenerate] resolves with images, the
    handler ends with those images appended to the gallery, the last of
    them as the active image, the upload cleared, the upload panel closed,
    no error and nothing loading; and the images are at least one. *)
Theorem generate_success_appends_to_the_gallery
  (s : AppState File) (pre post : list (Update File)) (u : Update File)
  (newImages : list string) :
  handleGenerate env s = (pre ++ u :: post)%list ->
  imagesOf u = Some newImages ->
  let s' := run s (handleGenerate env s) in
  newImages <> []
  /\ generatedImages s' = (generatedImages s ++ newImages)%list
  /\ activeImageUrl s' = Some (last newImages EmptyString)
  /\ uploadedImage s' = None
  /\ uploadedImageUrl s' = None
  /\ isUploadPanelOpen s' = false
  /\ error s' = None
  /\ isLoading s' = false.
Proof.
  intros H Himg. revert H.
  unfold_handlers; handler_cases s;
    intros H; simpl in H; walk_updates H;
    (assert (Hne : newImages <> []);
     [ first [ injection Himg as <-; discriminate
             | injection Himg as <-;
               eapply text_request_returns_some; eassumption ]
     | split; [exact Hne|];
       unfold run; cbn [fold_left app apply generatedImages activeImageUrl
                          uploadedImage uploadedImageUrl isUploadPanelOpen
                          error isLoading];
       injection Himg as <-;
       rewrite (last_of_appended _ _ EmptyString) by exact Hne;
       repeat split ]).
Qed.

End HandlerOutcomes.

(* ===================================================================== *)
(** ** Invariants of the component                                        *)
(* ===================================================================== *)

Section ComponentInvariants.

Import App.

Variable File : Type.
Variable env : GeminiService.Environment File.

Ltac unfold_events :=
  unfold step, eventUpdates, handlerUpdates, handleGenerate, handleUpscale,
    handleApplyFilter, handleEditWithPrompt, handleChangeAspectRatio,
    editActiveImage, settle in *.

Ltac event_cases s :=
  repeat match goal with
         | |- context [match activeImageUrl s with _ => _ end] =>
             destruct (activeImageUrl s) as [[|? ?]|] eqn:?
         | |- context [match uploadedImage s with _ => _ end] =>
             destruct (uploadedImage s) eqn:?
         | |- context [GeminiService.generateImageFromImageAndText
                         ?e ?i ?p] =>
             destruct (GeminiService.generateImageFromImageAndText e i p)
               eqn:?
         | |- context [GeminiService.generateImageFromText ?e ?p ?a] =>
             destruct (GeminiService.generateImageFromText e p a) eqn:?
         | |- context [if ?b then _ else _] => destruct b eqn:?
         end.

(** A property of the state holds in every reachable configuration when it
    holds at the first render, every event issues only updates that keep
    it, and an update that keeps it does keep it. *)
Lemma reachable_invariant
  (I : AppState File -> Prop) (P : Update File -> Prop) :
  I (initialState File) ->
  (forall s ev, I s -> Forall P (eventUpdates env ev s)) ->
  (forall s u, P u -> I s -> I (apply s u)) ->
  forall c, Reachable env c ->
            I (current c) /\ Forall (Forall P) (inFlight c).
Proof.
  intros Hinit Hevent Happly c Hreach.
  induction Hreach as [|c ev Hreach [IHs IHf]
                       |c before after u us Hreach [IHs IHf] Hflight]; simpl.
  - split; [assumption | constructor].
  - split; [assumption|]. constructor; [now apply Hevent | assumption].
  - rewrite Hflight in IHf.
    apply Forall_app in IHf as [Hbefore Hrest].
    apply Forall_cons_iff in Hrest as [Hus Hafter].
    apply Forall_cons_iff in Hus as [Hu Hus].
    split; [now apply Happly|].
    apply Forall_app. split; [assumption|]. constructor; assumption.
Qed.

Lemma errorText_is_showable (err : Thrown) :
  Some (errorText err) <> Some EmptyString.
Proof.
  unfold errorText, orElse.
  destruct (message err) as [[|c m]|]; simpl; discriminate.
Qed.

Ltac all_showable :=
  simpl;
  repeat (apply Forall_cons;
          [first [exact I | apply errorText_is_showable | discriminate]|]);
  apply Forall_nil.

Lemma events_keep_error_showable (s : AppState File) (ev : Event File) :
  Forall keepsErrorShowable (eventUpdates env ev s).
Proof.
  destruct ev as [h| | | |file objectUrl| | |];
    [destruct h| | | |destruct file| | |];
    unfold_events; event_cases s; all_showable.
Qed.

(** X15.  In every configuration the component can reach, the error flag
    is [null] or a non-empty string: the banner, which is rendered when
    the flag is truthy, shows whenever an error is recorded. *)
Theorem recorded_error_is_always_shown (c : Config File) :
  Reachable env c ->
  error (current c) <> Some EmptyString
  /\ (errorShown (current c) = true <-> error (current c) <> None).
Proof.
  intros Hreach.
  assert (Hshow : errorIsShowable (current c)).
  { apply (reachable_invariant errorIsShowable keepsErrorShowable);
      [discriminate | | | assumption].
    - intros s ev _. apply events_keep_error_showable.
    - intros s u Hu Hs. destruct u; simpl; assumption. }
  unfold errorIsShowable in Hshow. split; [exact Hshow|].
  unfold errorShown.
  destruct (error (current c)) as [[|ch msg]|]; simpl; split;
    intros H; congruence.
Qed.

Ltac all_data_urls :=
  simpl;
  repeat (apply Forall_cons;
          [first [ exact I
                 | intros ? [= <-];
                   eapply edit_returns_data_url; eassumption
                 | apply Forall_cons;
                   [eapply edit_returns_data_url; eassumption
                   | apply Forall_nil]
                 | eapply text_request_returns_data_urls; eassumption
                 | intros ? [=] ]|]);
  apply Forall_nil.

Lemma events_keep_data_urls (s : AppState File) (ev : Event File) :
  Forall keepsDataUrls (eventUpdates env ev s).
Proof.
  destruct ev as [h| | | |file objectUrl| | |];
    [destruct h| | | |destruct file| | |];
    unfold_events; event_cases s; all_data_urls.
Qed.

Lemma last_image_is_held {A : Type} (images : list A) (x : A) :
  nth_error images (length images - 1) = Some x -> In x images.
Proof. apply nth_error_In. Qed.

Lemma apply_keeps_data_urls (s : AppState File) (u : Update File) :
  keepsDataUrls u -> holdsDataUrls s -> holdsDataUrls (apply s u).
Proof.
  intros Hu [Himgs Hactive].
  destruct u; try (split; assumption); simpl in Hu.
  unfold holdsDataUrls; simpl.
  assert (Hall : Forall isDataUrl (generatedImages s ++ newImages)%list).
  { apply Forall_app. now split. }
  split; [exact Hall|]. intros url.
  destruct (0 <? length (generatedImages s ++ newImages))%nat;
    [|apply Hactive].
  intros Hnth. apply last_image_is_held in Hnth.
  now apply (proj1 (Forall_forall _ _) Hall).
Qed.

(** X16.  In every configuration the component can reach, every image of
    the gallery and the active image are URLs of the form
    [data:<mimeType>;base64,<data>]; so the encoder never answers
    ["Invalid data URL"] to the active image. *)
Theorem state_holds_only_data_urls (c : Config File) :
  Reachable env c ->
  Forall isDataUrl (generatedImages (current c))
  /\ forall url, activeImageUrl (current c) = Some url ->
       isDataUrl url
       /\ GeminiService.dataUrlToPart url <> Throw (Error "Invalid data URL").
Proof.
  intros Hreach.
  assert (Hhold : holdsDataUrls (current c)).
  { apply (reachable_invariant holdsDataUrls keepsDataUrls);
      [ | | | assumption].
    - split; [constructor | discriminate].
    - intros s ev _. apply events_keep_data_urls.
    - apply apply_keeps_data_urls. }
  destruct Hhold as [Himgs Hactive]. split; [exact Himgs|].
  intros url Hurl. specialize (Hactive url Hurl). split; [exact Hactive|].
  destruct Hactive as (mimeType & data & ->). intros Hinvalid.
  apply invalid_iff_no_comma in Hinvalid.
  unfold GeminiService.dataUrlOf in Hinvalid.
  rewrite !occurs_app in Hinvalid.
  apply orb_false_iff in Hinvalid as [_ Hinvalid].
  apply orb_false_iff in Hinvalid as [_ Hinvalid].
  apply orb_false_iff in Hinvalid as [Hinvalid _].
  discriminate Hinvalid.
Qed.

Lemma events_keep_no_blank (s : AppState File) (ev : Event File) :
  historyHasNoBlank s -> Forall keepsNoBlank (eventUpdates env ev s).
Proof.
  intros Hs.
  assert (Hnew : truthy (Some (trim (prompt s))) = true ->
                 Forall (fun p => allWhiteSpace p = false)
                        (slice0 10 (prompt s :: promptHistory s))).
  { intros Hblank. rewrite truthy_trim in Hblank.
    apply negb_true_iff in Hblank.
    apply Forall_forall. intros p Hp. apply In_slice0 in Hp.
    destruct Hp as [<- | Hp]; [assumption|].
    now apply (proj1 (Forall_forall _ _) Hs). }
  destruct ev as [h| | | |file objectUrl| | |];
    [destruct h| | | |destruct file| | |];
    unfold_events; event_cases s; simpl;
    repeat (apply Forall_cons;
            [first [ exact I
                   | apply Hnew;
                     match goal with
                     | H : _ && _ = true |- _ =>
                         apply andb_true_iff in H as [_ H]; exact H
                     end ]|]);
    apply Forall_nil.
Qed.

(** X17.  In every configuration the component can reach, no entry of the
    prompt history is made of white space only. *)
Theorem history_holds_no_blank_prompt (c : Config File) (p : string) :
  Reachable env c ->
  In p (promptHistory (current c)) ->
  allWhiteSpace p = false /\ trim p <> EmptyString.
Proof.
  intros Hreach Hin.
  assert (Hhold : historyHasNoBlank (current c)).
  { apply (reachable_invariant historyHasNoBlank keepsNoBlank);
      [constructor | | | assumption].
    - intros s ev Hs. now apply events_keep_no_blank.
    - intros s u Hu Hs. destruct u; simpl; assumption. }
  pose proof (proj1 (Forall_forall _ _) Hhold p Hin) as Hp.
  simpl in Hp. split; [exact Hp|].
  pose proof (truthy_trim p) as Ht. rewrite Hp in Ht.
  intros Hempty. rewrite Hempty in Ht. discriminate Ht.
Qed.

Lemma active_after_append {A : Type} (images : list A) (old : option A) :
  isSome old = true \/ images <> [] ->
  isSome (if (0 <? length images)%nat
          then nth_error images (length images - 1)
          else old) = true.
Proof.
  intros H. destruct images as [|x images].
  - simpl. destruct H as [H | H]; [assumption | congruence].
  - change (0 <? length (x :: images))%nat with true. cbv iota.
    destruct (nth_error (x :: images) (length (x :: images) - 1)) eqn:Hnth;
      [reflexivity|].
    apply nth_error_None in Hnth. simpl in Hnth. lia.
Qed.

(** X18.  No event removes an image: after any event the gallery is the
    old gallery with images appended, which only [handleGenerate] does;
    and an active image, once there, is never taken away. *)
Theorem gallery_only_grows (s : AppState File) (ev : Event File) :
  exists added,
    generatedImages (step env s ev) = (generatedImages s ++ added)%list
    /\ (added <> [] -> ev = Invoke HandleGenerate)
    /\ (isSome (activeImageUrl s) = true ->
        isSome (activeImageUrl (step env s ev)) = true).
Proof.
  destruct ev as [h| | | |file objectUrl| | |];
    [destruct h| | | |destruct file| | |];
    unfold_events; event_cases s;
    unfold run; cbn [fold_left app apply generatedImages activeImageUrl];
    first [ exists []; split; [symmetry; apply app_nil_r|];
            split; [congruence|];
            intros Hactive;
            repeat match goal with
                   | E : activeImageUrl s = _ |- _ => rewrite E
                   end;
            solve [assumption | reflexivity]
          | eexists; split; [reflexivity|];
            split; [reflexivity|];
            intros Hactive; apply active_after_append; now left ].
Qed.

Lemma settled_initially : settled (initialState File).
Proof. repeat split. intros H. now contradiction H. Qed.

Lemma step_keeps_settled (s : AppState File) (ev : Event File) :
  settled s -> settled (step env s ev).
Proof.
  unfold settled.
  destruct ev as [h| | | |file objectUrl| | |];
    [destruct h| | | |destruct file| | |];
    unfold_events; event_cases s;
    intros (Hload & Hupload & Hactive);
    unfold run;
    cbn [fold_left app apply generatedImages activeImageUrl isLoading
           uploadedImage uploadedImageUrl] in *;
    repeat match goal with
           | E : uploadedImage s = _ |- _ => rewrite E
           | E : activeImageUrl s = _ |- _ => rewrite E
           end;
    cbn [isSome] in *;
    (split; [solve [reflexivity | assumption]|]);
    (split; [solve [reflexivity | assumption]|]);
    solve [ assumption
          | intros _; reflexivity
          | intros Hne; apply active_after_append; right; exact Hne ].
Qed.

(** X19.  After every session of completed events nothing is loading, the
    uploaded image and its preview are both set or both unset, and a
    gallery that is not empty has an active image. *)
Theorem completed_session_is_settled (evs : list (Event File)) :
  let s := session env evs in
  isLoading s = false
  /\ isSome (uploadedImage s) = isSome (uploadedImageUrl s)
  /\ (generatedImages s <> [] -> isSome (activeImageUrl s) = true).
Proof.
  change (settled (session env evs)).
  induction evs as [|ev evs IH] using rev_ind.
  - apply settled_initially.
  - unfold session. rewrite fold_left_app. simpl.
    now apply step_keeps_settled.
Qed.

(** X20.  When [handleGenerate] adds a prompt to a history that is not
    full, the history is the prompt followed by the old entries; when the
    history holds 10 entries, the oldest, which is the last, makes room. *)
Theorem full_history_drops_its_oldest_entry (s : AppState File) :
  ~ In (prompt s) (promptHistory s) ->
  allWhiteSpace (prompt s) = false ->
  (length (promptHistory s) < 10 ->
   promptHistory (step env s (Invoke HandleGenerate))
   = prompt s :: promptHistory s)
  /\ (length (promptHistory s) = 10 ->
      promptHistory (step env s (Invoke HandleGenerate))
      = prompt s :: removelast (promptHistory s)).
Proof.
  intros Hnew Hblank. rewrite history_after_generate, truthy_trim, Hblank.
  destruct (includes (promptHistory s) (prompt s)) eqn:Hinc;
    [apply includes_true in Hinc; contradiction|].
  cbn [negb andb]. unfold slice0. split; intros Hlen.
  - change (firstn 10 (prompt s :: promptHistory s))
      with (prompt s :: firstn 9 (promptHistory s)).
    rewrite firstn_all2 by lia. reflexivity.
  - change (firstn 10 (prompt s :: promptHistory s))
      with (prompt s :: firstn 9 (promptHistory s)).
    rewrite removelast_firstn_len, Hlen. reflexivity.
Qed.

Lemma length_append (a b : string) :
  String.length (a ++ b) = String.length a + String.length b.
Proof. induction a as [|c a IH]; simpl; [reflexivity | now rewrite IH]. Qed.

Lemma substring_prefix (n : nat) (p : string) :
  n <= String.length p ->
  String.length (substring 0 n p) = n
  /\ exists rest, p = substring 0 n p ++ rest.
Proof.
  revert p. induction n as [|n IH]; intros p Hn.
  - destruct p; simpl; (split; [reflexivity|]); eexists; reflexivity.
  - destruct p as [|c p]; simpl in Hn; [lia|].
    destruct (IH p) as (Hlen & rest & Hrest); [lia|].
    simpl. split; [now rewrite Hlen|].
    exists rest. now rewrite <- Hrest.
Qed.

(** X21.  The label of a history button is the prompt itself when the
    prompt has at most 20 characters; otherwise it is the first 20
    characters of the prompt followed by three dots, 23 characters in
    all. *)
Theorem history_label_is_bounded (p : string) :
  String.length (historyLabel p) <= 23
  /\ (String.length p <= 20 -> historyLabel p = p)
  /\ (20 < String.length p ->
      String.length (historyLabel p) = 23
      /\ exists head rest,
           p = head ++ rest /\ String.length head = 20
           /\ historyLabel p = head ++ "...").
Proof.
  unfold historyLabel.
  destruct (20 <? String.length p)%nat eqn:Hlong.
  - apply Nat.ltb_lt in Hlong.
    destruct (substring_prefix 20 p) as (Hlen & rest & Hrest); [lia|].
    rewrite length_append, Hlen. simpl.
    split; [lia|]. split; [lia|]. intros _. split; [reflexivity|].
    exists (substring 0 20 p), rest. repeat split; assumption.
  - apply Nat.ltb_ge in Hlong. split; [lia|]. split; [reflexivity | lia].
Qed.

End ComponentInvariants.

(* ===================================================================== *)
(** ** The further properties on the sample inputs                        *)
(* ===================================================================== *)

Section MoreInstances.

Import GeminiService.
Import App.

Lemma encoded_part_is_read_off_the_url_witness :
  exists dataUrl pre post rest,
    (@FromFile unit tt = FromDataUrl dataUrl
     \/ exists file, @FromFile unit tt = FromFile file
                     /\ readAsDataURL galleryEnv file = Return dataUrl)
    /\ dataUrl = pre ++ ":" ++ "image/png" ++ ";" ++ post ++ ","
                 ++ "iVBORw0KGgo=" ++ rest
    /\ (rest = EmptyString \/ exists r, rest = "," ++ r)
    /\ capturable "image/png" = true
    /\ occurs "," pre = false /\ occurs "," post = false
    /\ occurs "," "iVBORw0KGgo=" = false.
Proof.
  exact (encoded_part_is_read_off_the_url unit galleryEnv (FromFile tt)
           "image/png" "iVBORw0KGgo=" eq_refl).
Defined.

Lemma header_without_mime_segment_is_rejected_witness :
  dataUrlToPart "data:image/svg+xml,<svg/>"
  = Throw (Error "Could not parse MIME type from data URL").
Proof.
  exact (header_without_mime_segment_is_rejected "data:image/svg+xml" "<svg/>"
           eq_refl (or_intror eq_refl)).
Defined.

Lemma encoded_part_round_trips_witness :
  originalImagePartOf galleryEnv
    (FromDataUrl "data:image/png;name=fox;base64,iVBORw0KGgo=,ignored")
  = Return (partOf "image/png" "iVBORw0KGgo=")
  /\ dataUrlToPart "data:image/png;base64,iVBORw0KGgo="
     = Return (partOf "image/png" "iVBORw0KGgo=").
Proof.
  split; [reflexivity|].
  exact (encoded_part_round_trips unit galleryEnv
           (FromDataUrl "data:image/png;name=fox;base64,iVBORw0KGgo=,ignored")
           (partOf "image/png" "iVBORw0KGgo=") eq_refl).
Defined.

Lemma edit_failure_has_a_source_witness :
  let env := sampleEnv (Throw (Error "quota exceeded")) (Throw ErrorEvent) in
  let err := Error "quota exceeded" in
  newGoogleGenAI env = Throw err
  \/ (exists file, @FromDataUrl unit sampleUrl = FromFile file
                   /\ readAsDataURL env file = Throw err)
  \/ (originalImagePartOf env (FromDataUrl sampleUrl) = Throw err
      /\ (err = Error "Invalid data URL"
          \/ err = Error "Could not parse MIME type from data URL"))
  \/ (exists part,
        originalImagePartOf env (FromDataUrl sampleUrl) = Return part
        /\ generateContent env (contentRequest part "add a hat") = Throw err)
  \/ (exists response,
        answers env (FromDataUrl sampleUrl) "add a hat" response
        /\ (inClass (Throw err) PromptBlocked
            \/ inClass (Throw err) StoppedEarly
            \/ inClass (Throw err) TextFeedback
            \/ inClass (Throw err) NoImage)).
Proof.
  exact (edit_failure_has_a_source unit
           (sampleEnv (Throw (Error "quota exceeded")) (Throw ErrorEvent))
           (FromDataUrl sampleUrl) "add a hat" (Error "quota exceeded")
           eq_refl).
Defined.

Lemma edit_returns_only_an_image_part_witness :
  exists response before part after blob,
    answers galleryEnv (FromFile tt) "add a hat" response
    /\ truthy (blockReasonOf response) = false
    /\ partsOfFirstCandidate response = Some (before ++ part :: after)%list
    /\ (forall p, In p before -> Sdk.inlineData p = None)
    /\ Sdk.inlineData part = Some blob
    /\ "data:image/png;base64,iVBORw0KGgo="
       = "data:" ++ Sdk.mimeType blob ++ ";base64," ++ Sdk.data blob.
Proof.
  exact (edit_returns_only_an_image_part unit galleryEnv (FromFile tt)
           "add a hat" "data:image/png;base64,iVBORw0KGgo=" eq_refl).
Defined.

Lemma text_request_never_returns_nothing_witness :
  let urls := ["data:image/png;base64,AAAA"; "data:image/png;base64,BBBB"] in
  urls <> []
  /\ Forall (fun url => exists bytes, url = "data:image/png;base64," ++ bytes)
            urls
  /\ exists response imgs,
       answersText galleryEnv "a red fox" Ratio_4_3 response
       /\ Sdk.generatedImages response = Some imgs
       /\ length urls = length imgs.
Proof.
  exact (text_request_never_returns_nothing unit galleryEnv "a red fox"
           Ratio_4_3
           ["data:image/png;base64,AAAA"; "data:image/png;base64,BBBB"]
           eq_refl).
Defined.

Lemma generated_image_can_be_edited_witness :
  (exists urls, generateImageFromText galleryEnv "a red fox" Ratio_4_3
                = Return urls
                /\ In "data:image/png;base64,BBBB" urls)
  /\ dataUrlToPart "data:image/png;base64,BBBB"
     = Return (partOf "image/png" "BBBB")
  /\ forall userPrompt,
       generateImageFromImageAndText galleryEnv
         (FromDataUrl "data:image/png;base64,BBBB") userPrompt
       = bind (generateContent galleryEnv
                 (contentRequest (partOf "image/png" "BBBB") userPrompt))
              interpretResponse.
Proof.
  exact (generated_image_can_be_edited unit galleryEnv "a red fox" Ratio_4_3
           twoImages
           [ {| Sdk.image := {| Sdk.imageBytes := "AAAA" |} |};
             {| Sdk.image := {| Sdk.imageBytes := "BBBB" |} |} ]
           {| Sdk.image := {| Sdk.imageBytes := "BBBB" |} |}
           (conj eq_refl eq_refl) eq_refl
           (or_intror (or_introl eq_refl)) eq_refl).
Defined.

Lemma edit_success_replaces_active_image_witness :
  let s' := run editingSample
              (handlerUpdates galleryEnv HandleEditWithPrompt editingSample) in
  activeImageUrl s' = Some "data:image/png;base64,iVBORw0KGgo="
  /\ error s' = None
  /\ isLoading s' = false
  /\ generatedImages s' = []
  /\ prompt s' = EmptyString
  /\ promptHistory s' = []
  /\ editPrompt s' = EmptyString.
Proof.
  exact (edit_success_replaces_active_image unit galleryEnv
           HandleEditWithPrompt editingSample
           [SetIsLoading true; SetError None;
            SetLoadingMessage "Applying your edit..."]
           [SetActiveImageUrl (Some "data:image/png;base64,iVBORw0KGgo=");
            SetEditPrompt ""; SetIsLoading false]
           "data:image/png;base64,iVBORw0KGgo=" eq_refl eq_refl).
Defined.

Lemma failed_request_keeps_the_inputs_witness :
  let env := sampleEnv (Throw (Error "quota exceeded")) (Throw ErrorEvent) in
  let s' := run editingSample
              (handlerUpdates env HandleEditWithPrompt editingSample) in
  prompt s' = EmptyString
  /\ editPrompt s' = "add a hat"
  /\ aspectRatio s' = Ratio_1_1
  /\ uploadedImage s' = None
  /\ uploadedImageUrl s' = None
  /\ isUploadPanelOpen s' = false.
Proof.
  exact (failed_request_keeps_the_inputs unit
           (sampleEnv (Throw (Error "quota exceeded")) (Throw ErrorEvent))
           HandleEditWithPrompt editingSample
           [SetIsLoading true; SetError None;
            SetLoadingMessage "Applying your edit..."]
           [SetError (Some "quota exceeded"); SetIsLoading false]
           (AwaitImage (Throw (Error "quota exceeded")))
           (Error "quota exceeded") eq_refl eq_refl).
Defined.

Lemma generate_success_appends_to_the_gallery_witness :
  let s' := run typedPrompt (handleGenerate galleryEnv typedPrompt) in
  ["data:image/png;base64,AAAA"; "data:image/png;base64,BBBB"] <> []
  /\ generatedImages s'
     = (generatedImages typedPrompt
        ++ ["data:image/png;base64,AAAA"; "data:image/png;base64,BBBB"])%list
  /\ activeImageUrl s' = Some "data:image/png;base64,BBBB"
  /\ uploadedImage s' = None
  /\ uploadedImageUrl s' = None
  /\ isUploadPanelOpen s' = false
  /\ error s' = None
  /\ isLoading s' = false.
Proof.
  exact (generate_success_appends_to_the_gallery unit galleryEnv typedPrompt
           [SetIsLoading true; SetError None;
            SetPromptHistory ["a blue whale"; "a red fox"];
            SetLoadingMessage "AI is creating..."]
           [AppendGeneratedImages
              ["data:image/png;base64,AAAA"; "data:image/png;base64,BBBB"];
            SetUploadedImage None; SetUploadedImageUrl None;
            SetIsUploadPanelOpen false; SetIsLoading false]
           (AwaitImages
              (Return ["data:image/png;base64,AAAA";
                       "data:image/png;base64,BBBB"]))
           ["data:image/png;base64,AAAA"; "data:image/png;base64,BBBB"]
           eq_refl eq_refl).
Defined.

(** A session that ends in a guard: generating with nothing typed. *)
Lemma recorded_error_is_always_shown_witness :
  let s := session galleryEnv [Invoke HandleGenerate] in
  error s = Some "Please enter a prompt or upload an image."
  /\ error s <> Some EmptyString
  /\ (errorShown s = true <-> error s <> None).
Proof.
  destruct (session_is_reachable unit galleryEnv [Invoke HandleGenerate])
    as [flight Hreach].
  split; [reflexivity|].
  exact (recorded_error_is_always_shown unit galleryEnv _ Hreach).
Defined.

Lemma state_holds_only_data_urls_witness :
  generatedImages typedPrompt
  = ["data:image/png;base64,AAAA"; "data:image/png;base64,BBBB"]
  /\ Forall isDataUrl (generatedImages typedPrompt)
  /\ forall url, activeImageUrl typedPrompt = Some url ->
       isDataUrl url
       /\ dataUrlToPart url <> Throw (Error "Invalid data URL").
Proof.
  destruct (session_is_reachable unit galleryEnv
              [PromptChanged "a red fox"; Invoke HandleGenerate;
               PromptChanged "a blue whale"]) as [flight Hreach].
  split; [reflexivity|].
  exact (state_holds_only_data_urls unit galleryEnv _ Hreach).
Defined.

Lemma history_holds_no_blank_prompt_witness :
  promptHistory typedPrompt = ["a red fox"]
  /\ allWhiteSpace "a red fox" = false /\ trim "a red fox" <> EmptyString.
Proof.
  destruct (session_is_reachable unit galleryEnv
              [PromptChanged "a red fox"; Invoke HandleGenerate;
               PromptChanged "a blue whale"]) as [flight Hreach].
  split; [reflexivity|].
  exact (history_holds_no_blank_prompt unit galleryEnv _ "a red fox" Hreach
           (or_introl eq_refl)).
Defined.

Lemma full_history_drops_its_oldest_entry_witness :
  promptHistory (step galleryEnv fullHistory (Invoke HandleGenerate))
  = ["eleven"; "ten"; "nine"; "eight"; "seven"; "six";
     "five"; "four"; "three"; "two"].
Proof.
  refine (proj2 (full_history_drops_its_oldest_entry unit galleryEnv
                   fullHistory _ eq_refl) eq_refl).
  simpl. intros H.
  repeat (destruct H as [H | H]; [discriminate H|]). exact H.
Defined.

End MoreInstances.
